(** * bqt: the lifecycle registrar and the focus-regain key-release workaround

    A shallow embedding of [bqt/__init__.py].  The module's functions become
    computations in a state-and-exception monad over a [world] that holds
    the process-wide objects the module reads and writes: the environment,
    the toolkit application singleton, the host's [load_post] handler list,
    the module global [parent_window], the [atexit] registry, and a trace of
    the calls made into the host, the toolkit and the operating system. *)

From Stdlib Require Import ZArith String.
From stdpp Require Import list strings gmap.

Set Warnings "-clear-no-such-hyp".

Open Scope Z_scope.
Open Scope string_scope.
Open Scope list_scope.

(** ** Python values that the module tests for truth or compares *)

Inductive pyvalue :=
| PyNone
| PyInt (z : Z)
| PyStr (s : string).

(** [bool(v)]: [None], [0] and the empty string are false. *)
Definition truth (v : pyvalue) : bool :=
  match v with
  | PyNone => false
  | PyInt z => negb (Z.eqb z 0)
  | PyStr s => negb (String.eqb s "")
  end.

(** [a == b] on these values; an [int] never equals a [str]. *)
Definition py_eq (a b : pyvalue) : bool :=
  match a, b with
  | PyNone, PyNone => true
  | PyInt x, PyInt y => Z.eqb x y
  | PyStr s, PyStr t => String.eqb s t
  | _, _ => false
  end.

(** [needle in hay] on [str]: [needle] occurs as a contiguous substring. *)
Fixpoint contains (needle hay : string) : bool :=
  String.prefix needle hay ||
  match hay with
  | EmptyString => false
  | String _ rest => contains needle rest
  end.

(** ** Objects *)

(** A toolkit object is known to this module only by its identity. *)
Definition QObject := Z.

Record QWindow := { parent : option QObject }.

(** The attributes of the application singleton that this module touches. *)
Record BlenderApplication := {
  just_focused : bool;
  _blender_window : QWindow }.

(** A reference as held in a Python variable or attribute: [None], or the
    application singleton (of which the process has at most one). *)
Inductive pyref := RefNone | RefApplication.

Definition ref_truth (r : pyref) : bool :=
  match r with RefNone => false | RefApplication => true end.

Record Event := { type : string }.

Record QFocusOperator := { _qapp : pyref }.

(** The functions that are stored in the host's handler list.  Other
    add-ons put their own handlers in the same list. *)
Inductive callback :=
| Fn_add_focus_handle
| Fn_create_global_app
| Fn_foreign (id : nat).

#[global] Instance callback_eq_dec : EqDecision callback.
Proof. solve_decision. Defined.

Inductive exitfunc := Fn_on_exit.

#[global] Instance exitfunc_eq_dec : EqDecision exitfunc.
Proof. solve_decision. Defined.

(** ** Calls that leave the module

    A call into the host, the toolkit or the operating system is recorded
    in the trace, in the order of the calls, and taken to return normally.
    What the callee does with it is outside this module. *)

Inductive effect :=
| Print_line (msg : string)
| Keybd_event (bVk bScan dwFlags dwExtraInfo : Z)
| SetHighDpiScaleFactorRoundingPolicy (policy : string)
| SetAttribute (attribute : string)
| Register_class (cls : string)
| Unregister_class (cls : string)
| Ops_return_focus (mode : string)
| Modal_handler_add
| Store_window_geometry
| Application_quit
| Called (f : callback)
| Printed_traceback (f : callback).

Inductive exn :=
| NameError (name : string)
| AttributeError (obj attr : string)
| ValueError (msg : string)
| ConstructorError.

#[global] Instance effect_eq_dec : EqDecision effect.
Proof. solve_decision. Defined.

(** ** The world *)

Record world := World {
  environ : gmap string string;          (* os.environ *)
  platform : string;                     (* sys.platform *)
  argv : list string;                    (* sys.argv *)
  QApplication_instance : option BlenderApplication;
  load_post : list callback;             (* bpy.app.handlers.load_post *)
  parent_window : option QObject;        (* module global *)
  atexit_registry : list exitfunc;
  trace : list effect }.

Definition set_instance (a : option BlenderApplication) (w : world) : world :=
  World (environ w) (platform w) (argv w) a (load_post w)
        (parent_window w) (atexit_registry w) (trace w).

Definition set_load_post (l : list callback) (w : world) : world :=
  World (environ w) (platform w) (argv w) (QApplication_instance w) l
        (parent_window w) (atexit_registry w) (trace w).

Definition set_parent_window (p : option QObject) (w : world) : world :=
  World (environ w) (platform w) (argv w) (QApplication_instance w)
        (load_post w) p (atexit_registry w) (trace w).

Definition set_atexit_registry (l : list exitfunc) (w : world) : world :=
  World (environ w) (platform w) (argv w) (QApplication_instance w)
        (load_post w) (parent_window w) l (trace w).

Definition set_trace (t : list effect) (w : world) : world :=
  World (environ w) (platform w) (argv w) (QApplication_instance w)
        (load_post w) (parent_window w) (atexit_registry w) t.

(** ** The monad: state passing, with Python exceptions

    An exception keeps the world as it was when it was raised. *)

Inductive outcome (A : Type) :=
| Ok (a : A) (w : world)
| Raise (e : exn) (w : world).
Arguments Ok {A} a w.
Arguments Raise {A} e w.

Definition final {A} (o : outcome A) : world :=
  match o with Ok _ w => w | Raise _ w => w end.

Definition returns {A} (o : outcome A) : bool :=
  match o with Ok _ _ => true | Raise _ _ => false end.

Definition M (A : Type) : Type := world → outcome A.

Definition ret {A} (a : A) : M A := λ w, Ok a w.

Definition bind {A B} (m : M A) (k : A → M B) : M B :=
  λ w, match m w with
       | Ok a w' => k a w'
       | Raise e w' => Raise e w'
       end.

Declare Scope py_scope.
Delimit Scope py_scope with py.
Notation "x ← y ; z" := (bind y (λ x, z))
  (at level 20, y at level 100, z at level 200, only parsing) : py_scope.
Notation "x ;; z" := (bind x (λ _, z))
  (at level 100, z at level 200, only parsing, right associativity) : py_scope.
Open Scope py_scope.

Definition raise {A} (e : exn) : M A := λ w, Raise e w.
Definition emit (e : effect) : M unit :=
  λ w, Ok tt (set_trace (trace w ++ [e]) w).

Definition pass : M unit := ret tt.

(** [for x in l: body(x)] *)
Fixpoint for_each {A} (l : list A) (body : A → M unit) : M unit :=
  match l with
  | [] => pass
  | x :: rest => body x;; for_each rest body
  end.

(** ** Primitives of the interpreter and of the libraries *)

(** [os.getenv(key, default)] *)
Definition getenv (key : string) (default : pyvalue) : M pyvalue :=
  λ w, Ok (from_option PyStr default (environ w !! key)) w.

(** [QApplication.instance()]: a reference to the singleton, or [None]. *)
Definition instance : M pyref :=
  λ w, Ok (match QApplication_instance w with
            | Some _ => RefApplication
            | None => RefNone
            end) w.

(** Reading and writing an attribute through a reference reaches the one
    shared application object; on [None] it is an [AttributeError]. *)
Definition get_just_focused (r : pyref) : M bool :=
  λ w, match r, QApplication_instance w with
       | RefApplication, Some a => Ok (just_focused a) w
       | _, _ => Raise (AttributeError "NoneType" "just_focused") w
       end.

Definition set_just_focused (r : pyref) (b : bool) : M unit :=
  λ w, match r, QApplication_instance w with
       | RefApplication, Some a =>
           Ok tt (set_instance
                    (Some {| just_focused := b;
                             _blender_window := _blender_window a |}) w)
       | _, _ => Raise (AttributeError "NoneType" "just_focused") w
       end.

Definition get_blender_window (r : pyref) : M QWindow :=
  λ w, match r, QApplication_instance w with
       | RefApplication, Some a => Ok (_blender_window a) w
       | _, _ => Raise (AttributeError "NoneType" "_blender_window") w
       end.

(** [l.remove(x)]: the list without the first occurrence of [x]; nothing
    when [x] does not occur, where Python raises. *)
Fixpoint remove_first (f : callback) (l : list callback)
  : option (list callback) :=
  match l with
  | [] => None
  | g :: rest =>
      if decide (f = g) then Some rest
      else (g ::.) <$> remove_first f rest
  end.

(** [x in load_post], [load_post.append(x)], [load_post.remove(x)]. *)
Definition load_post_contains (f : callback) : M bool :=
  λ w, Ok (bool_decide (f ∈ load_post w)) w.

Definition load_post_append (f : callback) : M unit :=
  λ w, Ok tt (set_load_post (load_post w ++ [f]) w).

Definition load_post_remove (f : callback) : M unit :=
  λ w, match remove_first f (load_post w) with
       | Some l => Ok tt (set_load_post l w)
       | None => Raise (ValueError "list.remove(x): x not in list") w
       end.

(** [atexit.register(f)] adds one more entry; [atexit.unregister(f)]
    drops every entry equal to [f] and is silent when there is none. *)
Definition atexit_register (f : exitfunc) : M unit :=
  λ w, Ok tt (set_atexit_registry (atexit_registry w ++ [f]) w).

Definition atexit_unregister (f : exitfunc) : M unit :=
  λ w, Ok tt (set_atexit_registry
                (filter (λ g, g ≠ f) (atexit_registry w)) w).

(** The names that the module binds at its top level: its imports, its
    class, its functions and its one global variable.  Reading any other
    name inside a function of the module is a [NameError]. *)
Definition module_globals : list string :=
  [ "atexit"; "os"; "sys"; "ctypes"; "bpy"; "QtCore"; "QApplication";
    "BlenderApplication"; "QFocusOperator"; "instantiate_application";
    "load_os_module"; "add_focus_handle"; "parent_window";
    "create_global_app"; "register"; "unregister"; "on_exit" ].

Definition global_name (name : string) : M unit :=
  if bool_decide (name ∈ module_globals) then pass
  else raise (NameError name).

(** ** class QFocusOperator *)

(** [invoke] installs the operator as a modal handler. *)
Definition invoke (self : QFocusOperator) (event : Event) : M string :=
  emit Modal_handler_add;;
  ret "RUNNING_MODAL".

(** The table of [detect_keyboard]: a name that is looked for in the type
    of the event, and the virtual-key code that is released. *)
Definition keycodes : list (string * Z) :=
  [ ("_ALT", 0x12);
    ("_CONTROL", 0x11);
    ("_SHIFT", 0x10);
    ("VK_LWIN", 0x5B);
    ("VK_RWIN", 0x5C) ].

(** [ctypes.windll]: the attribute exists on Windows only, where
    [sys.platform] is [win32]; anywhere else reading it is an
    [AttributeError]. *)
Definition windll_missing : exn := AttributeError "ctypes" "windll".

Definition ctypes_windll : M unit :=
  λ w, if String.eqb (platform w) "win32" then Ok tt w
       else Raise windll_missing w.

(** The call of the user-interface library of the operating system,
    [ctypes.windll.user32.keybd_event(code, 0, 2, 0)]; flag 2 is key-up. *)
Definition release_key (code : Z) : M unit :=
  ctypes_windll;;
  emit (Keybd_event code 0 2 0).

(** The line that [detect_keyboard] prints while there is no application. *)
Definition not_instantiated : string :=
  "QApplication not yet instantiated, focus hook can't be set".

Definition detect_keyboard (self : QFocusOperator) (event : Event)
  : M QFocusOperator :=
  q ← instance;
  let self := {| _qapp := q |} in
  if negb (ref_truth (_qapp self)) then
    emit (Print_line not_instantiated);;
    ret self
  else
    focused ← get_just_focused (_qapp self);
    (if focused then
       set_just_focused (_qapp self) false;;
       for_each keycodes (λ '(name, code),
         if negb (contains name (type event)) then release_key code
         else pass)
     else pass);;
    ret self.

(** [modal] hands every event to [detect_keyboard]. *)
Definition modal (self : QFocusOperator) (event : Event)
  : M (QFocusOperator * string) :=
  self' ← detect_keyboard self event;
  ret (self', "PASS_THROUGH").

(** ** Module functions that do not build the application *)

Definition add_focus_handle (dummy : unit) : M unit :=
  emit (Ops_return_focus "INVOKE_DEFAULT").

(** [register].  The call that registers the operator class is recorded
    and taken to return, as it does for a class that the host does not
    hold yet.  For a class that it holds already the host raises at that
    call, and [register] ends there, before it reaches the hooks. *)
Definition register : M unit :=
  startup ← getenv "BQT_DISABLE_STARTUP" PyNone;
  if truth startup then pass
  else
    wrap ← getenv "BQT_DISABLE_WRAP" (PyInt 0);
    (if negb (truth wrap) then
       emit (Register_class "QFocusOperator");;
       present ← load_post_contains Fn_add_focus_handle;
       if negb present then load_post_append Fn_add_focus_handle else pass
     else pass);;
    present ← load_post_contains Fn_create_global_app;
    (if negb present then load_post_append Fn_create_global_app else pass);;
    atexit_register Fn_on_exit.

Definition unregister : M unit :=
  wrap ← getenv "BQT_DISABLE_WRAP" (PyInt 0);
  (if negb (py_eq wrap (PyStr "1")) then
     global_name "focus";;
     emit (Unregister_class "focus.QFocusOperator")
   else pass);;
  present ← load_post_contains Fn_create_global_app;
  (if present then load_post_remove Fn_create_global_app else pass);;
  present ← load_post_contains Fn_add_focus_handle;
  (if present then load_post_remove Fn_add_focus_handle else pass);;
  atexit_unregister Fn_on_exit.

Definition on_exit : M unit :=
  app ← instance;
  if ref_truth app then
    emit Store_window_geometry;;
    emit Application_quit
  else pass.

(** ** Module functions that build the application *)

Section Lifecycle.

(** The platform classes live in the package [blender_applications].  This
    module only calls their constructors on [sys.argv]: each either builds
    the application object or ends with an exception. *)
Variables DarwinBlenderApplication Win32BlenderApplication
  : list string → exn + BlenderApplication.

(** Building a toolkit application makes it the process-wide instance. *)
Definition construct (cls : list string → exn + BlenderApplication)
  : M pyref :=
  λ w, match cls (argv w) with
       | inr a => Ok RefApplication (set_instance (Some a) w)
       | inl e => Raise e w
       end.

Definition sys_platform : M string := λ w, Ok (platform w) w.

(** The [linux] branch is [pass]; the function then runs off its end, as it
    does for every platform that no branch names, and returns [None]. *)
Definition load_os_module : M pyref :=
  operating_system ← sys_platform;
  if String.eqb operating_system "darwin" then
    construct DarwinBlenderApplication
  else if bool_decide (operating_system ∈ ["linux"; "linux2"]) then
    ret RefNone
  else if String.eqb operating_system "win32" then
    construct Win32BlenderApplication
  else ret RefNone.

Definition instantiate_application : M pyref :=
  emit (SetHighDpiScaleFactorRoundingPolicy "PassThrough");;
  emit (SetAttribute "AA_EnableHighDpiScaling");;
  emit (SetAttribute "AA_UseHighDpiPixmaps");;
  app ← instance;
  if negb (ref_truth app) then load_os_module else ret app.

Definition assign_parent_window (p : option QObject) : M unit :=
  λ w, Ok tt (set_parent_window p w).

Definition create_global_app (dummy : unit) : M unit :=
  qapp ← instantiate_application;
  window ← get_blender_window qapp;
  assign_parent_window (parent window);;
  load_post_remove Fn_create_global_app.

(** ** The host

    After a scene is loaded the host calls the handlers of [load_post] in
    list order.  It walks the list by position and reads it afresh at every
    step, so a handler may remove itself while the walk is under way.  A
    handler that raises has its traceback printed and the walk goes on.
    Handlers of other add-ons are outside this module and leave its world
    alone. *)

Definition call (f : callback) : M unit :=
  match f with
  | Fn_add_focus_handle => add_focus_handle tt
  | Fn_create_global_app => create_global_app tt
  | Fn_foreign _ => pass
  end.

Definition run_handler (f : callback) (w : world) : world :=
  match (emit (Called f);; call f) w with
  | Ok _ w' => w'
  | Raise _ w' => set_trace (trace w' ++ [Printed_traceback f]) w'
  end.

(** The walk from position [pos]; [None] when the fuel runs out first. *)
Fixpoint run_load_post (fuel pos : nat) (w : world) : option world :=
  match load_post w !! pos with
  | None => Some w
  | Some f =>
      match fuel with
      | O => None
      | S fuel' => run_load_post fuel' (S pos) (run_handler f w)
      end
  end.

Definition scene_loaded (w : world) : option world :=
  run_load_post (length (load_post w)) 0 w.

(** What can happen to the process between start and exit.  The host
    reports an exception of [register] or [unregister] and carries on with
    the world as the exception left it. *)
Inductive action :=
| Register
| Unregister
| Scene_load
| Input (self : QFocusOperator) (event : Event).

Definition step (a : action) (w : world) : option world :=
  match a with
  | Register => Some (final (register w))
  | Unregister => Some (final (unregister w))
  | Scene_load => scene_loaded w
  | Input self event => Some (final (detect_keyboard self event w))
  end.

Fixpoint run (acts : list action) (w : world) : option world :=
  match acts with
  | [] => Some w
  | a :: rest =>
      match step a w with
      | Some w' => run rest w'
      | None => None
      end
  end.

End Lifecycle.

(** * Notions used in the statements *)

(** ** The keyboard workaround *)

(** The codes of the table whose name does not occur in the event's type,
    in table order. *)
Definition released (event : Event) : list Z :=
  flat_map (λ '(name, code),
              if contains name (type event) then [] else [code]) keycodes.

Definition key_up (code : Z) : effect := Keybd_event code 0 2 0.

Definition unfocus (a : BlenderApplication) : BlenderApplication :=
  {| just_focused := false; _blender_window := _blender_window a |}.

(** ** Lists of handlers *)

(** The guarded append of [register]: [if f not in l: l.append(f)]. *)
Definition append_absent (f : callback) (l : list callback) : list callback :=
  if bool_decide (f ∈ l) then l else l ++ [f].

(** The guarded removal of [unregister]: [if f in l: l.remove(f)]. *)
Definition without (f : callback) (l : list callback) : list callback :=
  default l (remove_first f l).

(** The first [create_global_app] of a list, if it has one, comes after an
    [add_focus_handle]. *)
Definition hooks_in_order (l : list callback) : Prop :=
  (Fn_create_global_app ∉ l) ∨
  ∃ l1 l2,
    l = l1 ++ Fn_create_global_app :: l2 ∧
    Fn_add_focus_handle ∈ l1 ∧ (Fn_create_global_app ∉ l1).

(** The environment is [env], the list has no duplicates and the hooks are
    in order. *)
Definition orderly (env : gmap string string) (w : world) : Prop :=
  environ w = env ∧ NoDup (load_post w) ∧ hooks_in_order (load_post w).

(** ** The environment switches and what [register] and [unregister] leave *)

Definition env_value (w : world) (key : string) (default : pyvalue) : pyvalue :=
  from_option PyStr default (environ w !! key).

(** The two tests of [register] and the test of [unregister]. *)
Definition startup_disabled (w : world) : bool :=
  truth (env_value w "BQT_DISABLE_STARTUP" PyNone).

Definition wrap_disabled (w : world) : bool :=
  truth (env_value w "BQT_DISABLE_WRAP" (PyInt 0)).

Definition wrap_is_1 (w : world) : bool :=
  py_eq (env_value w "BQT_DISABLE_WRAP" (PyInt 0)) (PyStr "1").

Definition registered (w : world) : world :=
  World (environ w) (platform w) (argv w) (QApplication_instance w)
        (append_absent Fn_create_global_app
           (if wrap_disabled w then load_post w
            else append_absent Fn_add_focus_handle (load_post w)))
        (parent_window w)
        (atexit_registry w ++ [Fn_on_exit])
        (if wrap_disabled w then trace w
         else trace w ++ [Register_class "QFocusOperator"]).

Definition unregistered (w : world) : world :=
  World (environ w) (platform w) (argv w) (QApplication_instance w)
        (without Fn_add_focus_handle
           (without Fn_create_global_app (load_post w)))
        (parent_window w)
        (filter (λ g, g ≠ Fn_on_exit) (atexit_registry w))
        (trace w).

(** ** The window-wrap hook and the handler calls *)

Definition dpi_calls : list effect :=
  [ SetHighDpiScaleFactorRoundingPolicy "PassThrough";
    SetAttribute "AA_EnableHighDpiScaling";
    SetAttribute "AA_UseHighDpiPixmaps" ].

Definition built (r : exn + BlenderApplication)
  : exn + option BlenderApplication :=
  match r with
  | inl e => inl e
  | inr a => inr (Some a)
  end.

Section Application.

Context (Darwin Win32 : list string → exn + BlenderApplication).

(** What [instantiate_application] comes back with: the application that
    exists, the one that the class of the platform builds, the exception
    of that class, or nothing. *)
Definition application_for (w : world) : exn + option BlenderApplication :=
  match QApplication_instance w with
  | Some a => inr (Some a)
  | None =>
      if String.eqb (platform w) "darwin" then built (Darwin (argv w))
      else if bool_decide (platform w ∈ ["linux"; "linux2"]) then inr None
      else if String.eqb (platform w) "win32" then built (Win32 (argv w))
      else inr None
  end.

End Application.

Definition wrapped (a : BlenderApplication) (l : list callback) (w : world)
  : world :=
  World (environ w) (platform w) (argv w) (Some a) l
        (parent (_blender_window a)) (atexit_registry w)
        (trace w ++ dpi_calls).

(** The trace of a call to a handler other than the window-wrap hook. *)
Definition calls (f : callback) : list effect :=
  match f with
  | Fn_add_focus_handle =>
      [Called Fn_add_focus_handle; Ops_return_focus "INVOKE_DEFAULT"]
  | _ => [Called f]
  end.

(** ** Repeated set-up and the end of the process *)

(** [register] called [n] times in a row, the host carrying on after each. *)
Fixpoint register_times (n : nat) (w : world) : world :=
  match n with
  | O => w
  | S n' => final (register (register_times n' w))
  end.

Definition call_exitfunc (f : exitfunc) : M unit :=
  match f with
  | Fn_on_exit => on_exit
  end.

(** At exit the interpreter calls the registered functions, the last
    registered first, one call for each registration. *)
Fixpoint run_exitfuncs (l : list exitfunc) (w : world) : world :=
  match l with
  | [] => w
  | f :: rest => run_exitfuncs rest (final (call_exitfunc f w))
  end.

Definition exit_process (w : world) : world :=
  run_exitfuncs (reverse (atexit_registry w)) w.

(** ** Worlds to run the module in *)

(** A process at start-up: nothing registered, no application yet. *)
Definition fresh (env : gmap string string) (os : string) : world :=
  World env os ["blender"] None [] None [] [].

Definition sample_application : BlenderApplication :=
  {| just_focused := false; _blender_window := {| parent := Some 7 |} |}.

Definition sample_class (args : list string) : exn + BlenderApplication :=
  inr sample_application.

Definition focused_world : world :=
  World ∅ "win32" ["blender"]
        (Some {| just_focused := true;
                 _blender_window := {| parent := Some 7 |} |})
        [Fn_add_focus_handle] (Some 7) [Fn_on_exit] [].

Definition idle_world : world :=
  World ∅ "win32" ["blender"] (Some sample_application)
        [Fn_add_focus_handle] (Some 7) [Fn_on_exit] [].

Definition empty_values_world : world :=
  fresh {[ "BQT_DISABLE_STARTUP" := ""; "BQT_DISABLE_WRAP" := "" ]} "win32".

Definition wrap_zero_world : world :=
  fresh {[ "BQT_DISABLE_WRAP" := "0" ]} "win32".

Definition crowded_world : world :=
  World {[ "BQT_DISABLE_WRAP" := "1" ]} "win32" ["blender"] None
        [Fn_foreign 1; Fn_add_focus_handle; Fn_foreign 2;
         Fn_create_global_app; Fn_foreign 3]
        None [Fn_on_exit; Fn_on_exit] [].

Definition built_at_start : world :=
  final (instantiate_application sample_class sample_class (fresh ∅ "win32")).

Definition registered_on_linux : world := final (register (fresh ∅ "linux")).

Definition failed_on_linux : world :=
  final (create_global_app sample_class sample_class tt registered_on_linux).

Definition misordered_world : world :=
  World ∅ "win32" ["blender"] None
        [Fn_foreign 1; Fn_create_global_app; Fn_add_focus_handle;
         Fn_foreign 2]
        None [Fn_on_exit] [].

Definition focused_on_darwin : world :=
  World ∅ "darwin" ["blender"]
        (Some {| just_focused := true;
                 _blender_window := {| parent := Some 7 |} |})
        [Fn_add_focus_handle] (Some 7) [Fn_on_exit] [].

Definition failing_class (args : list string) : exn + BlenderApplication :=
  inl ConstructorError.

Definition wrap_disabled_world : world :=
  fresh {[ "BQT_DISABLE_WRAP" := "1" ]} "win32".

Definition registered_at_start : world := final (register (fresh ∅ "win32")).

Definition wrapped_at_start : world :=
  final (create_global_app sample_class sample_class tt registered_at_start).

(** * Properties *)

(** ** The keyboard workaround *)

(** [detect_keyboard] in closed form.  With focus regained, the flag is
    cleared first; on Windows every selected code is released; anywhere
    else the first code that is to be released ends the call. *)
Lemma detect_keyboard_cases self event w :
  detect_keyboard self event w =
  match QApplication_instance w with
  | None =>
      Ok {| _qapp := RefNone |}
         (set_trace (trace w ++ [Print_line not_instantiated]) w)
  | Some a =>
      if just_focused a then
        if String.eqb (platform w) "win32" then
          Ok {| _qapp := RefApplication |}
             (set_trace (trace w ++ (key_up <$> released event))
                        (set_instance (Some (unfocus a)) w))
        else
          match released event with
          | [] =>
              Ok {| _qapp := RefApplication |}
                 (set_instance (Some (unfocus a)) w)
          | _ :: _ =>
              Raise windll_missing (set_instance (Some (unfocus a)) w)
          end
      else Ok {| _qapp := RefApplication |} w
  end.
Proof.
  unfold detect_keyboard, bind, instance, get_just_focused, set_just_focused.
  destruct (QApplication_instance w) as [a|] eqn:Hw; cbn; [|done].
  rewrite Hw. destruct (just_focused a) eqn:Hf; cbn; [|done].
  rewrite Hw.
  unfold released, keycodes, release_key, ctypes_windll, bind, emit, pass,
    ret.
  cbn -[contains String.eqb].
  destruct (String.eqb (platform w) "win32") eqn:Hp;
  destruct (contains "_ALT" (type event)),
           (contains "_CONTROL" (type event)),
           (contains "_SHIFT" (type event)),
           (contains "VK_LWIN" (type event)),
           (contains "VK_RWIN" (type event));
    unfold set_trace, set_instance;
    repeat (first [rewrite Hp | progress cbn -[String.eqb]]);
    rewrite <- ?app_assoc; cbn -[String.eqb];
    try rewrite app_nil_r; reflexivity.
Qed.

(** The ways through [detect_keyboard], one goal for each. *)
Ltac detect_keyboard_paths w event :=
  rewrite ?detect_keyboard_cases;
  let a := fresh "a" in
  destruct (QApplication_instance w) as [a|] eqn:?;
  [destruct (just_focused a) eqn:?;
   [destruct (String.eqb (platform w) "win32") eqn:?;
    [|destruct (released event)]|]|].

(** A code is released exactly when it belongs to a table entry whose name
    the event's type does not contain. *)
Lemma elem_of_released event code :
  code ∈ released event ↔
  ∃ name, (name, code) ∈ keycodes ∧ contains name (type event) = false.
Proof.
  unfold released. rewrite list_elem_of_In, in_flat_map. split.
  - intros [[name c] [Hin Hc]]. exists name.
    destruct (contains name (type event)) eqn:E; cbn in Hc; [done|].
    destruct Hc as [->|[]]. split; [by apply list_elem_of_In|done].
  - intros [name [Hin Hc]]. exists (name, code).
    split; [by apply list_elem_of_In|]. rewrite Hc. by left.
Qed.

(** A table entry whose name occurs in the event's type is passed over:
    its code is not released (no two entries share a code). *)
Lemma released_skips event name code :
  (name, code) ∈ keycodes →
  contains name (type event) = true →
  code ∉ released event.
Proof.
  intros Hin Hc [name' [Hin' Hc']]%elem_of_released.
  assert (name' = name) as ->; [|congruence].
  unfold keycodes in *.
  repeat (apply elem_of_cons in Hin as [Hin|Hin];
          [injection Hin as -> ->|]);
    try (by apply elem_of_nil in Hin);
    repeat (apply elem_of_cons in Hin' as [Hin'|Hin'];
            [by injection Hin' as ->|]);
    by apply elem_of_nil in Hin'.
Qed.





(** What the table does for an event type that contains one of its names:
    the types [LEFT_ALT] and [RIGHT_SHIFT] keep their own modifier out of
    the releases. *)
Example released_LEFT_ALT :
  released {| type := "LEFT_ALT" |} = [0x11; 0x10; 0x5B; 0x5C].
Proof. reflexivity. Qed.

Example released_RIGHT_SHIFT :
  released {| type := "RIGHT_SHIFT" |} = [0x12; 0x11; 0x5B; 0x5C].
Proof. reflexivity. Qed.

(** The test is on the text of the type, not on the key: the type of the
    Alt button of a 3D mouse contains [_ALT] as well. *)
Example released_NDOF_BUTTON_ALT :
  released {| type := "NDOF_BUTTON_ALT" |} = [0x11; 0x10; 0x5B; 0x5C].
Proof. reflexivity. Qed.

(** C3.  The host names the Control keys [LEFT_CTRL] and [RIGHT_CTRL].  The
    table looks for [_CONTROL], which neither contains: with the
    application focused and the left Control key as the event, the key-up
    of Control (code 0x11) is emitted along with the other four. *)
Theorem detect_keyboard_left_ctrl_releases_control :
  contains "_CONTROL" "LEFT_CTRL" = false ∧
  ∃ self' w',
    detect_keyboard {| _qapp := RefNone |} {| type := "LEFT_CTRL" |}
                    focused_world = Ok self' w' ∧
    trace w' = key_up <$> [0x12; 0x11; 0x10; 0x5B; 0x5C] ∧
    key_up 0x11 ∈ trace w'.
Proof.
  split; [reflexivity|]. eexists _, _.
  split; [vm_compute; reflexivity|]. split; [reflexivity|].
  cbn. set_solver.
Qed.

(** C8.  Without an application singleton the call returns normally and
    the world it leaves is the world it found with one diagnostic line
    added to the trace: no key-up signal is emitted.  The operator itself
    holds [None] where it keeps what the lookup gave. *)
Theorem detect_keyboard_without_application self event w :
  QApplication_instance w = None →
  ∃ self' w',
    detect_keyboard self event w = Ok self' w' ∧
    w' = set_trace (trace w ++ [Print_line not_instantiated]) w ∧
    _qapp self' = RefNone ∧
    (∀ code scan flags extra,
       Keybd_event code scan flags extra ∈ trace w' →
       Keybd_event code scan flags extra ∈ trace w).
Proof.
  intros Hw. rewrite detect_keyboard_cases, Hw.
  eexists _, _. repeat split. cbn.
  intros code scan flags extra [H|H]%elem_of_app; [done|].
  apply list_elem_of_singleton in H. discriminate.
Qed.

(** The key [A], pressed before the application exists. *)
Lemma detect_keyboard_without_application_on_A :
  ∃ self' w',
    detect_keyboard {| _qapp := RefNone |} {| type := "A" |}
                    (fresh ∅ "win32") = Ok self' w' ∧
    w' = set_trace (trace (fresh ∅ "win32") ++ [Print_line not_instantiated])
                   (fresh ∅ "win32") ∧
    _qapp self' = RefNone ∧
    (∀ code scan flags extra,
       Keybd_event code scan flags extra ∈ trace w' →
       Keybd_event code scan flags extra ∈ trace (fresh ∅ "win32")).
Proof.
  apply (detect_keyboard_without_application
           {| _qapp := RefNone |} {| type := "A" |} (fresh ∅ "win32")).
  reflexivity.
Defined.

(** C10.  Whatever way a call of [detect_keyboard] ends, the world it
    leaves has the environment, the handler list, [parent_window] and the
    exit registry as they were; the application is neither created nor
    dropped and its window is left alone; [just_focused] either keeps its
    value or goes from true to false. *)
Theorem detect_keyboard_frame self event w :
  let w' := final (detect_keyboard self event w) in
  environ w' = environ w ∧
  platform w' = platform w ∧
  argv w' = argv w ∧
  load_post w' = load_post w ∧
  parent_window w' = parent_window w ∧
  atexit_registry w' = atexit_registry w ∧
  match QApplication_instance w, QApplication_instance w' with
  | None, None => True
  | Some a, Some a' =>
      _blender_window a' = _blender_window a ∧
      (just_focused a' = just_focused a ∨
       just_focused a = true ∧ just_focused a' = false)
  | _, _ => False
  end.
Proof.
  detect_keyboard_paths w event; cbn;
    repeat match goal with
           | H : QApplication_instance w = _ |- _ => rewrite H
           end;
    repeat split; auto.
Qed.

(** On Windows the call always returns normally. *)
Lemma detect_keyboard_returns self event w :
  platform w = "win32" →
  returns (detect_keyboard self event w) = true.
Proof.
  intros Hp. detect_keyboard_paths w event; try done; by rewrite Hp in *.
Qed.

Lemma detect_keyboard_load_post self event w :
  load_post (final (detect_keyboard self event w)) = load_post w.
Proof. by detect_keyboard_paths w event. Qed.

(** ** Lists of handlers *)

Lemma remove_first_None f l : f ∉ l → remove_first f l = None.
Proof.
  induction l as [|g l IH]; [done|]. intros Hf. cbn.
  destruct (decide (f = g)) as [->|]; [set_solver|].
  rewrite IH; [done|set_solver].
Qed.

Lemma remove_first_Some f l :
  f ∈ l →
  ∃ l1 l2,
    l = l1 ++ f :: l2 ∧ (f ∉ l1) ∧ remove_first f l = Some (l1 ++ l2).
Proof.
  induction l as [|g l IH]; [by intros ?%elem_of_nil|]. intros Hf. cbn.
  destruct (decide (f = g)) as [->|Hne].
  - exists [], l. repeat split. apply not_elem_of_nil.
  - assert (f ∈ l) as Hl by set_solver.
    destruct (IH Hl) as (l1 & l2 & E & Hl1 & Hr).
    exists (g :: l1), l2. rewrite Hr, E. repeat split. set_solver.
Qed.

Lemma remove_first_sublist f l l' : remove_first f l = Some l' → sublist l' l.
Proof.
  destruct (decide (f ∈ l)) as [Hin|Hout].
  - destruct (remove_first_Some f l Hin) as (l1 & l2 & -> & _ & ->).
    intros [= <-]. apply sublist_app; [done|]. by apply sublist_cons.
  - by rewrite remove_first_None.
Qed.

Lemma remove_first_length f l l' :
  remove_first f l = Some l' → length l = S (length l').
Proof.
  destruct (decide (f ∈ l)) as [Hin|Hout].
  - destruct (remove_first_Some f l Hin) as (l1 & l2 & -> & _ & ->).
    intros [= <-]. rewrite !length_app. cbn. lia.
  - by rewrite remove_first_None.
Qed.

(** In a list without duplicates, removing the first occurrence removes
    the only one. *)
Lemma remove_first_NoDup_absent f l l' :
  NoDup l → remove_first f l = Some l' → f ∉ l'.
Proof.
  intros Hnd Hr. destruct (decide (f ∈ l)) as [Hin|Hout].
  - destruct (remove_first_Some f l Hin) as (l1 & l2 & -> & Hl1 & Hr').
    rewrite Hr' in Hr. injection Hr as <-.
    apply NoDup_app in Hnd as (_ & Hdisj & Hnd2).
    apply NoDup_cons in Hnd2 as [Hl2 _]. set_solver.
  - by rewrite remove_first_None in Hr.
Qed.

Lemma without_sublist f l : sublist (without f l) l.
Proof.
  unfold without. destruct (remove_first f l) eqn:E; cbn; [|done].
  by eapply remove_first_sublist.
Qed.

Lemma without_NoDup f l : NoDup l → NoDup (without f l).
Proof. intros. eapply sublist_NoDup; [done|apply without_sublist]. Qed.

Lemma append_absent_NoDup f l : NoDup l → NoDup (append_absent f l).
Proof.
  intros Hnd. unfold append_absent. case_bool_decide; [done|].
  apply NoDup_app. repeat split; [done| |apply NoDup_singleton].
  intros x Hx ->%list_elem_of_singleton. done.
Qed.

Lemma elem_of_append_absent f g l :
  g ∈ append_absent f l ↔ g = f ∨ g ∈ l.
Proof. unfold append_absent. case_bool_decide; set_solver. Qed.

Lemma append_absent_present f l : f ∈ l → append_absent f l = l.
Proof. intros. unfold append_absent. by rewrite bool_decide_true. Qed.

Lemma without_absent f l : f ∉ l → without f l = l.
Proof. intros. unfold without. by rewrite remove_first_None. Qed.

(** ** [register], [unregister] and [on_exit] in closed form *)

Lemma register_cases w :
  register w = Ok tt (if startup_disabled w then w else registered w).
Proof.
  unfold registered, register, bind, getenv.
  unfold startup_disabled, wrap_disabled, env_value.
  destruct (truth (from_option PyStr PyNone _)); [done|].
  destruct (truth (from_option PyStr (PyInt 0) _)); cbn;
    unfold load_post_contains, load_post_append, atexit_register, pass, ret,
      append_absent; cbn;
    repeat (case_bool_decide; cbn); done.
Qed.

(** [unregister] gets past its first statement only when the variable is
    exactly ["1"]; otherwise it stops at the name [focus]. *)
Lemma unregister_cases w :
  unregister w =
  if wrap_is_1 w then Ok tt (unregistered w)
  else Raise (NameError "focus") w.
Proof.
  unfold unregistered, unregister, bind, getenv. unfold wrap_is_1, env_value.
  destruct (py_eq (from_option PyStr (PyInt 0) _) _); cbn; [|done].
  unfold load_post_contains, load_post_remove, atexit_unregister, pass, ret,
    without.
  destruct w as [env os args app hooks pw exits tr]; cbn.
  destruct (decide (Fn_create_global_app ∈ hooks)) as [Hc|Hc].
  - rewrite bool_decide_true by done.
    destruct (remove_first_Some _ _ Hc) as (l1 & l2 & _ & _ & E).
    cbn. rewrite !E. cbn.
    destruct (decide (Fn_add_focus_handle ∈ l1 ++ l2)) as [Ha|Ha].
    + rewrite bool_decide_true by done.
      destruct (remove_first_Some _ _ Ha) as (k1 & k2 & _ & _ & E').
      cbn. by rewrite !E'.
    + rewrite bool_decide_false by done. cbn.
      by rewrite (remove_first_None _ _ Ha).
  - rewrite bool_decide_false by done. cbn.
    rewrite (remove_first_None _ _ Hc). cbn.
    destruct (decide (Fn_add_focus_handle ∈ hooks)) as [Ha|Ha].
    + rewrite bool_decide_true by done.
      destruct (remove_first_Some _ _ Ha) as (k1 & k2 & _ & _ & E').
      cbn. by rewrite !E'.
    + rewrite bool_decide_false by done. cbn.
      by rewrite (remove_first_None _ _ Ha).
Qed.

(** [register] leaves [on_exit] in the exit registry unless the whole
    integration is disabled. *)
Lemma register_arms_on_exit w :
  startup_disabled w = false →
  Fn_on_exit ∈ atexit_registry (final (register w)).
Proof. intros H. rewrite register_cases, H. cbn. set_solver. Qed.

(** ** The environment switches *)

Lemma startup_disabled_unset w :
  environ w !! "BQT_DISABLE_STARTUP" = None → startup_disabled w = false.
Proof. unfold startup_disabled, env_value. by intros ->. Qed.

Lemma wrap_disabled_unset w :
  environ w !! "BQT_DISABLE_WRAP" = None → wrap_disabled w = false.
Proof. unfold wrap_disabled, env_value. by intros ->. Qed.

Lemma wrap_disabled_set w v :
  environ w !! "BQT_DISABLE_WRAP" = Some v → v ≠ "" → wrap_disabled w = true.
Proof.
  unfold wrap_disabled, env_value. intros -> Hv. cbn.
  apply negb_true_iff. by apply String.eqb_neq.
Qed.

Lemma wrap_is_1_unset w :
  environ w !! "BQT_DISABLE_WRAP" = None → wrap_is_1 w = false.
Proof. unfold wrap_is_1, env_value. by intros ->. Qed.

(** C6, as the code has it.  With [BQT_DISABLE_WRAP] set to a non-empty
    value and [BQT_DISABLE_STARTUP] unset, [register] returns normally; it
    makes no call to register the operator class and does not add
    [add_focus_handle]; it does add [create_global_app] when it is not yet
    in the list, and it registers [on_exit]. *)
Theorem register_with_wrap_disabled w v :
  environ w !! "BQT_DISABLE_STARTUP" = None →
  environ w !! "BQT_DISABLE_WRAP" = Some v →
  v ≠ "" →
  ∃ w',
    register w = Ok tt w' ∧
    load_post w' = append_absent Fn_create_global_app (load_post w) ∧
    Fn_create_global_app ∈ load_post w' ∧
    (Fn_add_focus_handle ∈ load_post w' ↔
     Fn_add_focus_handle ∈ load_post w) ∧
    trace w' = trace w ∧
    atexit_registry w' = atexit_registry w ++ [Fn_on_exit].
Proof.
  intros Hs Hw Hv. rewrite register_cases, (startup_disabled_unset w Hs).
  eexists. split; [reflexivity|]. cbn.
  rewrite (wrap_disabled_set w v Hw Hv). repeat split.
  - apply elem_of_append_absent. by left.
  - intros [|]%elem_of_append_absent; done.
  - intros. apply elem_of_append_absent. by right.
Qed.

(** Start-up with [BQT_DISABLE_WRAP=1]. *)
Lemma register_with_wrap_disabled_at_start :
  ∃ w',
    register wrap_disabled_world = Ok tt w' ∧
    load_post w'
      = append_absent Fn_create_global_app (load_post wrap_disabled_world) ∧
    Fn_create_global_app ∈ load_post w' ∧
    (Fn_add_focus_handle ∈ load_post w' ↔
     Fn_add_focus_handle ∈ load_post wrap_disabled_world) ∧
    trace w' = trace wrap_disabled_world ∧
    atexit_registry w' = atexit_registry wrap_disabled_world ++ [Fn_on_exit].
Proof.
  apply (register_with_wrap_disabled wrap_disabled_world "1").
  - reflexivity.
  - reflexivity.
  - discriminate.
Defined.

(** C6, as the claim has it, fails at start-up with [BQT_DISABLE_WRAP=1]:
    the window-wrap hook is the one handler that [register] leaves in the
    list, and neither the operator class nor the keyboard-workaround hook
    is set up. *)
Lemma register_with_wrap_disabled_still_wraps :
  ∃ w',
    register wrap_disabled_world = Ok tt w' ∧
    load_post w' = [Fn_create_global_app] ∧
    ¬ ((Fn_create_global_app ∉ load_post w') ∧
       Fn_add_focus_handle ∈ load_post w' ∧
       Register_class "QFocusOperator" ∈ trace w').
Proof.
  eexists. split; [vm_compute; reflexivity|]. split; [reflexivity|].
  cbn. intros (Hc & _). apply Hc. set_solver.
Qed.

(** ** Duplicates in the handler list *)

Lemma register_NoDup w :
  NoDup (load_post w) → NoDup (load_post (final (register w))).
Proof.
  intros Hnd. rewrite register_cases. cbn.
  destruct (startup_disabled w); [done|]. cbn.
  destruct (wrap_disabled w); auto using append_absent_NoDup.
Qed.

Lemma unregister_NoDup w :
  NoDup (load_post w) → NoDup (load_post (final (unregister w))).
Proof.
  intros Hnd. rewrite unregister_cases.
  destruct (wrap_is_1 w); cbn; auto using without_NoDup.
Qed.

(** Registering twice adds nothing to the list the second time. *)
Lemma register_twice_load_post w :
  load_post (final (register (final (register w))))
  = load_post (final (register w)).
Proof.
  rewrite (register_cases w). cbn [final].
  destruct (startup_disabled w) eqn:Hs.
  { by rewrite register_cases, Hs. }
  rewrite register_cases.
  assert (startup_disabled (registered w) = false) as -> by exact Hs.
  assert (wrap_disabled (registered w) = wrap_disabled w) as Hw by done.
  cbn. rewrite Hw. destruct (wrap_disabled w).
  - apply append_absent_present, elem_of_append_absent. by left.
  - rewrite (append_absent_present Fn_add_focus_handle).
    + apply append_absent_present, elem_of_append_absent. by left.
    + apply elem_of_append_absent. right.
      apply elem_of_append_absent. by left.
Qed.

(** With the variable unset, or set to anything but ["1"], [unregister]
    stops at its first statement and removes nothing. *)
Lemma unregister_raises w :
  environ w !! "BQT_DISABLE_WRAP" ≠ Some "1" →
  unregister w = Raise (NameError "focus") w.
Proof.
  intros H. rewrite unregister_cases.
  unfold wrap_is_1, env_value.
  destruct (environ w !! "BQT_DISABLE_WRAP") as [v|]; cbn; [|done].
  destruct (String.eqb_spec v "1") as [->|]; done.
Qed.

(** C4.  In a process started without [BQT_DISABLE_WRAP], [unregister]
    ends with [NameError] on [focus], a name the module never binds: both
    when the two hooks are absent and, after [register], when they are
    present, in which case they stay in the list. *)
Theorem unregister_stops_at_focus :
  ("focus" ∉ module_globals) ∧
  unregister (fresh ∅ "win32")
    = Raise (NameError "focus") (fresh ∅ "win32") ∧
  load_post (final (unregister (final (register (fresh ∅ "win32")))))
    = [Fn_add_focus_handle; Fn_create_global_app] ∧
  returns (unregister (final (register (fresh ∅ "win32")))) = false.
Proof.
  split; [|by vm_compute].
  apply (bool_decide_unpack _). by vm_compute.
Qed.

(** ** The window-wrap hook *)

Section Wrapping.

Context (Darwin Win32 : list string → exn + BlenderApplication).

Lemma create_global_app_cases w :
  create_global_app Darwin Win32 tt w =
  match application_for Darwin Win32 w with
  | inl e => Raise e (set_trace (trace w ++ dpi_calls) w)
  | inr None =>
      Raise (AttributeError "NoneType" "_blender_window")
            (set_trace (trace w ++ dpi_calls) w)
  | inr (Some a) =>
      match remove_first Fn_create_global_app (load_post w) with
      | Some l => Ok tt (wrapped a l w)
      | None =>
          Raise (ValueError "list.remove(x): x not in list")
                (wrapped a (load_post w) w)
      end
  end.
Proof.
  unfold create_global_app, instantiate_application, load_os_module,
    application_for, wrapped, bind, emit, instance, sys_platform, construct,
    get_blender_window, assign_parent_window, load_post_remove, ret.
  destruct w as [env os args app hooks pw exits tr]; cbn.
  rewrite <- !app_assoc. cbn.
  destruct app as [a|]; cbn.
  { by destruct (remove_first _ hooks). }
  destruct (String.eqb os "darwin"); cbn.
  { destruct (Darwin args); cbn; [done|]. by destruct (remove_first _ hooks). }
  case_bool_decide; cbn; [done|].
  destruct (String.eqb os "win32"); cbn; [|done].
  destruct (Win32 args); cbn; [done|]. by destruct (remove_first _ hooks).
Qed.

(** The hook list after a call of the hook: untouched, or shorter by the
    first occurrence of the hook when the call returned normally. *)
Lemma create_global_app_load_post w :
  load_post (final (create_global_app Darwin Win32 tt w)) = load_post w ∨
  (returns (create_global_app Darwin Win32 tt w) = true ∧
   remove_first Fn_create_global_app (load_post w)
   = Some (load_post (final (create_global_app Darwin Win32 tt w)))).
Proof.
  rewrite create_global_app_cases.
  destruct (application_for Darwin Win32 w) as [e|[a|]]; cbn; auto.
  destruct (remove_first _ (load_post w)); cbn; auto.
Qed.

Lemma create_global_app_returns w w' :
  create_global_app Darwin Win32 tt w = Ok tt w' →
  ∃ a l,
    application_for Darwin Win32 w = inr (Some a) ∧
    remove_first Fn_create_global_app (load_post w) = Some l ∧
    w' = wrapped a l w.
Proof.
  rewrite create_global_app_cases.
  destruct (application_for Darwin Win32 w) as [e|[a|]]; [done| |done].
  destruct (remove_first _ (load_post w)) as [l|]; [|done].
  intros [= <-]. by exists a, l.
Qed.

(** An application that exists already is the one the hook goes on with:
    neither platform class is asked for another. *)
Lemma create_global_app_keeps_application w a :
  QApplication_instance w = Some a →
  QApplication_instance (final (create_global_app Darwin Win32 tt w))
  = Some a.
Proof.
  intros Hq. rewrite create_global_app_cases. unfold application_for.
  rewrite Hq. by destruct (remove_first _ (load_post w)).
Qed.

End Wrapping.

(** ** The walk over the handler list *)

Section Host.

Context (Darwin Win32 : list string → exn + BlenderApplication).

Lemma set_trace_set_trace t1 t2 w :
  set_trace t2 (set_trace t1 w) = set_trace t2 w.
Proof. reflexivity. Qed.

Lemma set_trace_id w : set_trace (trace w) w = w.
Proof. by destruct w. Qed.

Lemma run_handler_inert f w :
  f ≠ Fn_create_global_app →
  run_handler Darwin Win32 f w = set_trace (trace w ++ calls f) w.
Proof.
  intros Hf. unfold run_handler, bind, emit, call.
  destruct f; [|done|]; cbn; unfold set_trace; cbn;
    by rewrite <- ?app_assoc.
Qed.

(** What a call of the window-wrap hook adds to the trace. *)
Lemma run_handler_create_global_app w :
  ∃ evs,
    trace (run_handler Darwin Win32 Fn_create_global_app w)
    = trace w ++ Called Fn_create_global_app :: evs ∧
    (Called Fn_create_global_app ∉ evs) ∧
    (Called Fn_add_focus_handle ∉ evs).
Proof.
  unfold run_handler, bind, emit. cbn [call].
  rewrite create_global_app_cases.
  destruct (application_for _ _ _) as [e|[a|]]; cbn.
  - eexists. rewrite <- !app_assoc. split; [reflexivity|]. set_solver.
  - destruct (remove_first _ _); cbn; eexists; rewrite <- !app_assoc;
      (split; [reflexivity|]); set_solver.
  - eexists. rewrite <- !app_assoc. split; [reflexivity|]. set_solver.
Qed.

Lemma run_handler_load_post f w :
  load_post (run_handler Darwin Win32 f w) = load_post w ∨
  (f = Fn_create_global_app ∧
   remove_first Fn_create_global_app (load_post w)
   = Some (load_post (run_handler Darwin Win32 f w))).
Proof.
  destruct (decide (f = Fn_create_global_app)) as [->|Hf].
  - unfold run_handler, bind, emit. cbn [call].
    destruct (create_global_app_load_post Darwin Win32
                (set_trace (trace w ++ [Called Fn_create_global_app]) w))
      as [H|[Hr H]].
    + left. by destruct (create_global_app _ _ _ _).
    + right. split; [done|].
      by destruct (create_global_app _ _ _ _).
  - left. by rewrite run_handler_inert.
Qed.

Lemma run_handler_length f w :
  (length (load_post (run_handler Darwin Win32 f w))
   ≤ length (load_post w))%nat.
Proof.
  destruct (run_handler_load_post f w) as [->|[_ H]]; [done|].
  apply remove_first_length in H. lia.
Qed.

(** With fuel for every handler of the list the walk comes to its end. *)
Lemma run_load_post_total fuel pos w :
  (length (load_post w) ≤ fuel + pos)%nat →
  is_Some (run_load_post Darwin Win32 fuel pos w).
Proof.
  revert pos w. induction fuel as [|fuel IH]; intros pos w Hlen; cbn.
  - rewrite lookup_ge_None_2 by lia. done.
  - destruct (load_post w !! pos) as [f|]; [|done].
    apply IH. pose proof (run_handler_length f w). lia.
Qed.

Lemma scene_loaded_total w : is_Some (scene_loaded Darwin Win32 w).
Proof. apply run_load_post_total. lia. Qed.

(** A property that every handler call keeps is kept by the walk. *)
Lemma run_load_post_keeps (P : world → Prop) :
  (∀ f w, f ∈ load_post w → P w → P (run_handler Darwin Win32 f w)) →
  ∀ fuel pos w w',
    P w → run_load_post Darwin Win32 fuel pos w = Some w' → P w'.
Proof.
  intros Hstep fuel. induction fuel as [|fuel IH]; intros pos w w' HP; cbn.
  - destruct (load_post w !! pos); [done|]. by intros [= <-].
  - destruct (load_post w !! pos) as [f|] eqn:Hf; [|by intros [= <-]].
    apply IH, Hstep; [|done]. by eapply list_elem_of_lookup_2.
Qed.

(** The walk over a stretch of handlers none of which is the window-wrap
    hook: each is called in turn and the list stays as it is. *)
Lemma run_load_post_inert stretch :
  ∀ before after w fuel,
    load_post w = before ++ stretch ++ after →
    Fn_create_global_app ∉ stretch →
    run_load_post Darwin Win32 (length stretch + fuel) (length before) w
    = run_load_post Darwin Win32 fuel (length before + length stretch)
        (set_trace (trace w ++ flat_map calls stretch) w).
Proof.
  induction stretch as [|f stretch IH]; intros before after w fuel Hl Hc.
  - cbn. by rewrite app_nil_r, set_trace_id, Nat.add_0_r.
  - cbn [length Nat.add run_load_post].
    assert (load_post w !! length before = Some f) as ->.
    { rewrite Hl. by apply list_lookup_middle. }
    rewrite run_handler_inert by set_solver.
    replace (S (length before)) with (length (before ++ [f]))
      by (rewrite length_app; cbn; lia).
    rewrite (IH (before ++ [f]) after); cycle 1.
    { cbn. rewrite Hl, <- app_assoc. done. }
    { set_solver. }
    cbn [trace set_trace flat_map]. rewrite set_trace_set_trace.
    rewrite <- app_assoc, length_app. cbn.
    f_equal. lia.
Qed.

End Host.

(** ** The life of the two hooks *)

Section Hooks.

Context (Darwin Win32 : list string → exn + BlenderApplication).

Lemma Called_calls f g : Called f ∈ calls g ↔ f = g.
Proof. destruct g; cbn; set_solver. Qed.

Lemma Called_flat_map_calls f l : Called f ∈ flat_map calls l ↔ f ∈ l.
Proof.
  induction l as [|g l IH]; cbn; [set_solver|].
  rewrite elem_of_app, IH, Called_calls. set_solver.
Qed.

(** On a platform of the [linux] branch the loader hands back [None]. *)
Lemma load_os_module_linux w :
  platform w ∈ ["linux"; "linux2"] →
  load_os_module Darwin Win32 w = Ok RefNone w.
Proof.
  intros H. unfold load_os_module, bind, sys_platform. cbn.
  rewrite bool_decide_true by done.
  destruct (String.eqb_spec (platform w) "darwin") as [E|]; [|done].
  rewrite E in H. set_solver.
Qed.

(** There the hook, when no application exists yet, ends with an
    [AttributeError] on the missing object and stays in the list. *)
Lemma create_global_app_linux w :
  platform w ∈ ["linux"; "linux2"] →
  QApplication_instance w = None →
  create_global_app Darwin Win32 tt w
  = Raise (AttributeError "NoneType" "_blender_window")
          (set_trace (trace w ++ dpi_calls) w).
Proof.
  intros H Hq. rewrite create_global_app_cases.
  unfold application_for. rewrite Hq, bool_decide_true by done.
  destruct (String.eqb_spec (platform w) "darwin") as [E|]; [|done].
  rewrite E in H. set_solver.
Qed.

End Hooks.

(** C7.  A process on [linux] without an application: the loader returns
    [None] and raises nothing, and [create_global_app] then ends with an
    [AttributeError] on that [None].  It does not reach the line that
    removes it from the list, so the host calls it, and prints its
    traceback, at every scene load. *)
Theorem create_global_app_on_linux_raises :
  load_os_module sample_class sample_class (fresh ∅ "linux")
    = Ok RefNone (fresh ∅ "linux") ∧
  create_global_app sample_class sample_class tt
      (final (register (fresh ∅ "linux")))
    = Raise (AttributeError "NoneType" "_blender_window")
        (set_trace (Register_class "QFocusOperator" :: dpi_calls)
                   (final (register (fresh ∅ "linux")))) ∧
  ∃ w,
    run sample_class sample_class [Register; Scene_load; Scene_load]
        (fresh ∅ "linux") = Some w ∧
    load_post w = [Fn_add_focus_handle; Fn_create_global_app] ∧
    QApplication_instance w = None ∧
    parent_window w = None ∧
    filter (λ e, e = Printed_traceback Fn_create_global_app) (trace w)
      = [Printed_traceback Fn_create_global_app;
         Printed_traceback Fn_create_global_app].
Proof.
  split; [reflexivity|]. split; [reflexivity|].
  eexists. split; [vm_compute; reflexivity|]. by vm_compute.
Qed.

Section Process.

Context (Darwin Win32 : list string → exn + BlenderApplication).

(** Any action but [Register], taken when the window-wrap hook is not in
    the list, leaves it out of the list and does not call it. *)
Lemma step_without_register a w :
  a ≠ Register →
  Fn_create_global_app ∉ load_post w →
  ∃ w' evs,
    step Darwin Win32 a w = Some w' ∧
    (Fn_create_global_app ∉ load_post w') ∧
    trace w' = trace w ++ evs ∧
    (Called Fn_create_global_app ∉ evs).
Proof.
  intros Ha Hc. destruct a as [| | |self event]; [done| | |]; cbn [step].
  - rewrite unregister_cases. destruct (wrap_is_1 w); cbn.
    + eexists _, []. rewrite app_nil_r. repeat split; [|apply not_elem_of_nil].
      cbn. intros H. apply Hc.
      do 2 (eapply elem_of_sublist in H; [|apply without_sublist]). done.
    + eexists _, []. rewrite app_nil_r. repeat split; [done|].
      apply not_elem_of_nil.
  - destruct (scene_loaded_total Darwin Win32 w) as [w' Hw'].
    exists w'. unfold scene_loaded in Hw'.
    pose (P := λ v : world,
            (Fn_create_global_app ∉ load_post v) ∧
            ∃ evs, trace v = trace w ++ evs ∧
                   (Called Fn_create_global_app ∉ evs)).
    assert (P w') as (Hc' & evs & Ht & He).
    { eapply (run_load_post_keeps Darwin Win32 P); [| |exact Hw'].
      - intros f v Hf (Hv & evs & Ht & He).
        assert (f ≠ Fn_create_global_app) as Hne by (by intros ->).
        rewrite run_handler_inert by done. split; [done|].
        exists (evs ++ calls f). cbn. rewrite Ht, <- app_assoc.
        split; [done|]. rewrite elem_of_app, Called_calls. naive_solver.
      - split; [done|]. exists []. rewrite app_nil_r.
        split; [done|]. apply not_elem_of_nil. }
    by exists evs.
  - detect_keyboard_paths w event;
      cbn; eexists _, _; (split; [reflexivity|]); cbn.
    + repeat split; [done|]. intros (c & ? & _)%list_elem_of_fmap. done.
    + split; [done|]. split; [by rewrite app_nil_r|]. apply not_elem_of_nil.
    + split; [done|]. split; [by rewrite app_nil_r|]. apply not_elem_of_nil.
    + split; [done|]. split; [by rewrite app_nil_r|]. apply not_elem_of_nil.
    + repeat split; [done|]. by intros [=]%list_elem_of_singleton.
Qed.

Lemma run_without_register acts :
  ∀ w,
    Register ∉ acts →
    Fn_create_global_app ∉ load_post w →
    ∃ w' evs,
      run Darwin Win32 acts w = Some w' ∧
      (Fn_create_global_app ∉ load_post w') ∧
      trace w' = trace w ++ evs ∧
      (Called Fn_create_global_app ∉ evs).
Proof.
  induction acts as [|a acts IH]; intros w Hr Hc; cbn.
  - exists w, []. rewrite app_nil_r. repeat split; [done|].
    apply not_elem_of_nil.
  - apply not_elem_of_cons in Hr as [Ha Hr].
    destruct (step_without_register a w) as (w1 & evs1 & -> & Hc1 & Ht1 & He1);
      [done..|].
    destruct (IH w1 Hr Hc1) as (w2 & evs2 & -> & Hc2 & Ht2 & He2).
    exists w2, (evs1 ++ evs2). rewrite Ht2, Ht1, <- app_assoc.
    repeat split; [done|]. set_solver.
Qed.

(** C1, as the code has it.  A call of [create_global_app] that returns
    normally, on a list without duplicates, leaves the hook out of the
    list.  Through whatever follows short of another [register] (scene
    loads, input events, [unregister]) the hook stays out of the list and
    is not called again. *)
Theorem create_global_app_runs_once_until_register w w' acts :
  NoDup (load_post w) →
  create_global_app Darwin Win32 tt w = Ok tt w' →
  Register ∉ acts →
  (Fn_create_global_app ∉ load_post w') ∧
  ∃ w'' evs,
    run Darwin Win32 acts w' = Some w'' ∧
    (Fn_create_global_app ∉ load_post w'') ∧
    trace w'' = trace w' ++ evs ∧
    (Called Fn_create_global_app ∉ evs).
Proof.
  intros Hnd Hok Hr.
  apply create_global_app_returns in Hok as (a & l & _ & Hl & ->).
  assert (Fn_create_global_app ∉ load_post (wrapped a l w)) as Hc.
  { cbn. by eapply remove_first_NoDup_absent. }
  split; [done|]. by apply run_without_register.
Qed.

(** Every sequence of actions runs to its end. *)
Lemma run_total acts : ∀ w, is_Some (run Darwin Win32 acts w).
Proof.
  induction acts as [|a acts IH]; intros w; cbn; [done|].
  destruct a; cbn; try apply IH.
  destruct (scene_loaded_total Darwin Win32 w) as [w' ->]. apply IH.
Qed.

(** No action puts a handler into the list a second time. *)
Lemma step_NoDup a w w' :
  NoDup (load_post w) → step Darwin Win32 a w = Some w' →
  NoDup (load_post w').
Proof.
  intros Hnd. destruct a as [| | |self event]; cbn [step].
  - intros [= <-]. by apply register_NoDup.
  - intros [= <-]. by apply unregister_NoDup.
  - apply (run_load_post_keeps Darwin Win32 (λ v, NoDup (load_post v)));
      [|done].
    intros f v _ Hv.
    destruct (run_handler_load_post Darwin Win32 f v) as [->|[_ H]]; [done|].
    eapply sublist_NoDup; [done|]. by eapply remove_first_sublist.
  - intros [= <-]. by rewrite detect_keyboard_load_post.
Qed.

Lemma run_NoDup acts :
  ∀ w w', NoDup (load_post w) → run Darwin Win32 acts w = Some w' →
          NoDup (load_post w').
Proof.
  induction acts as [|a acts IH]; intros w w' Hnd; cbn.
  - by intros [= <-].
  - destruct (step Darwin Win32 a w) as [w1|] eqn:E; [|done].
    apply IH. by eapply step_NoDup.
Qed.

(** *** The order of the two hooks *)

Lemma run_handler_environ f w :
  environ (run_handler Darwin Win32 f w) = environ w.
Proof.
  destruct (decide (f = Fn_create_global_app)) as [->|Hf].
  - unfold run_handler, bind, emit. cbn [call].
    rewrite create_global_app_cases.
    destruct (application_for _ _ _) as [e|[a|]]; cbn; [done| |done].
    by destruct (remove_first _ _).
  - by rewrite run_handler_inert.
Qed.

Lemma run_handler_trace f w :
  ∃ evs, trace (run_handler Darwin Win32 f w) = trace w ++ evs.
Proof.
  destruct (decide (f = Fn_create_global_app)) as [->|Hf].
  - destruct (run_handler_create_global_app Darwin Win32 w) as (evs & Ht & _).
    rewrite Ht. by eexists.
  - rewrite run_handler_inert by done. by eexists.
Qed.

Lemma run_load_post_trace fuel pos w w' :
  run_load_post Darwin Win32 fuel pos w = Some w' →
  ∃ evs, trace w' = trace w ++ evs.
Proof.
  apply (run_load_post_keeps Darwin Win32
           (λ v, ∃ evs, trace v = trace w ++ evs)).
  - intros f v _ [evs Hv].
    destruct (run_handler_trace f v) as [evs' ->].
    exists (evs ++ evs'). by rewrite Hv, app_assoc.
  - exists []. by rewrite app_nil_r.
Qed.

(** With neither variable set, [register] leaves the two hooks in order
    whenever it finds them so, and in particular when it finds the list
    without [create_global_app]. *)
Lemma register_in_order w :
  environ w !! "BQT_DISABLE_STARTUP" = None →
  environ w !! "BQT_DISABLE_WRAP" = None →
  hooks_in_order (load_post w) →
  ∃ l1 l2,
    register w = Ok tt (registered w) ∧
    load_post (registered w) = l1 ++ Fn_create_global_app :: l2 ∧
    Fn_add_focus_handle ∈ l1 ∧ (Fn_create_global_app ∉ l1).
Proof.
  intros Hs Hw Ho.
  rewrite register_cases, (startup_disabled_unset w Hs).
  cbn [registered load_post]. rewrite (wrap_disabled_unset w Hw).
  destruct Ho as [Hc|(l1 & l2 & Hl & Ha & Hc)].
  - exists (append_absent Fn_add_focus_handle (load_post w)), [].
    repeat split.
    + unfold append_absent at 1. rewrite bool_decide_false; [done|].
      intros [|]%elem_of_append_absent; done.
    + apply elem_of_append_absent. by left.
    + intros [|]%elem_of_append_absent; done.
  - exists l1, l2. repeat split; [|done..].
    rewrite (append_absent_present Fn_add_focus_handle).
    + rewrite append_absent_present; [done|]. rewrite Hl.
      apply elem_of_app. right. apply elem_of_cons. by left.
    + rewrite Hl. apply elem_of_app. by left.
Qed.

(** The scene load over a list whose first [create_global_app] comes after
    the stretch [l1]: the handlers of [l1] are called, then the hook. *)
Lemma scene_loaded_in_order w l1 l2 :
  load_post w = l1 ++ Fn_create_global_app :: l2 →
  Fn_create_global_app ∉ l1 →
  ∃ w' evs,
    scene_loaded Darwin Win32 w = Some w' ∧
    trace w' = trace w ++ flat_map calls l1
               ++ Called Fn_create_global_app :: evs.
Proof.
  intros Hl Hc. unfold scene_loaded.
  replace (length (load_post w)) with (length l1 + S (length l2))%nat
    by (rewrite Hl, length_app; done).
  pose proof (run_load_post_inert Darwin Win32 l1 []
                (Fn_create_global_app :: l2) w (S (length l2)) Hl Hc) as Hwalk.
  cbn [length app Nat.add] in Hwalk. rewrite Hwalk. clear Hwalk.
  set (w1 := set_trace _ w).
  assert (load_post w1 !! length l1 = Some Fn_create_global_app) as Hlook.
  { change (load_post w1) with (load_post w). rewrite Hl.
    by apply list_lookup_middle. }
  cbn [run_load_post]. rewrite Hlook.
  destruct (run_load_post_total Darwin Win32 (length l2) (S (length l1))
              (run_handler Darwin Win32 Fn_create_global_app w1))
    as [w' Hw'].
  { pose proof (run_handler_length Darwin Win32 Fn_create_global_app w1) as H.
    change (load_post w1) with (load_post w) in H.
    rewrite Hl, length_app in H. cbn in H. lia. }
  rewrite Hw'.
  destruct (run_load_post_trace _ _ _ _ Hw') as [evs' Ht'].
  destruct (run_handler_create_global_app Darwin Win32 w1)
    as (evs & Ht & _ & _).
  exists w', (evs ++ evs'). split; [done|].
  rewrite Ht', Ht. subst w1. cbn [trace set_trace].
  by rewrite <- !app_assoc.
Qed.

(** In a process whose environment sets neither variable, no action takes
    the hooks out of order, brings a duplicate into the list or changes
    the environment. *)
Lemma step_orderly env a w w' :
  env !! "BQT_DISABLE_STARTUP" = None →
  env !! "BQT_DISABLE_WRAP" = None →
  orderly env w → step Darwin Win32 a w = Some w' → orderly env w'.
Proof.
  intros Hs Hw (He & Hnd & Ho). rewrite <- He in Hs, Hw.
  destruct a as [| | |self event]; cbn [step].
  - intros [= <-].
    destruct (register_in_order w Hs Hw Ho) as (l1 & l2 & -> & Hl & Ha & Hc).
    cbn [final]. repeat split; [done| |right; by exists l1, l2].
    pose proof (register_NoDup w Hnd) as H.
    by rewrite register_cases, (startup_disabled_unset w Hs) in H.
  - intros [= <-]. rewrite unregister_cases, (wrap_is_1_unset w Hw). done.
  - apply (run_load_post_keeps Darwin Win32 (orderly env)); [|done].
    intros f v _ (Hev & Hndv & Hov). split; [by rewrite run_handler_environ|].
    destruct (run_handler_load_post Darwin Win32 f v) as [->|[_ H]]; [done|].
    split.
    + eapply sublist_NoDup; [done|]. by eapply remove_first_sublist.
    + left. by eapply remove_first_NoDup_absent.
  - intros [= <-]. by detect_keyboard_paths w event.
Qed.

Lemma run_orderly env acts :
  env !! "BQT_DISABLE_STARTUP" = None →
  env !! "BQT_DISABLE_WRAP" = None →
  ∀ w w', orderly env w → run Darwin Win32 acts w = Some w' → orderly env w'.
Proof.
  intros Hs Hw. induction acts as [|a acts IH]; intros w w' Hor; cbn.
  - by intros [= <-].
  - destruct (step Darwin Win32 a w) as [w1|] eqn:E; [|done].
    apply IH. by eapply step_orderly.
Qed.

(** C5.  A process starts with neither variable set and with a handler list
    that has no duplicates and no [create_global_app].  After whatever
    scene loads, input events and calls of [unregister] come first, the
    first call of [register] returns normally and leaves
    [add_focus_handle] in the list ahead of the first [create_global_app];
    at the scene load that follows, the host has called [add_focus_handle]
    by the time it calls [create_global_app] for the first time. *)
Theorem register_orders_hooks acts w0 :
  environ w0 !! "BQT_DISABLE_STARTUP" = None →
  environ w0 !! "BQT_DISABLE_WRAP" = None →
  NoDup (load_post w0) →
  Fn_create_global_app ∉ load_post w0 →
  Register ∉ acts →
  ∃ w w' l1 l2,
    run Darwin Win32 acts w0 = Some w ∧
    register w = Ok tt w' ∧
    load_post w' = l1 ++ Fn_create_global_app :: l2 ∧
    Fn_add_focus_handle ∈ l1 ∧
    (Fn_create_global_app ∉ l1) ∧
    ∃ w'' evs1 evs2,
      scene_loaded Darwin Win32 w' = Some w'' ∧
      trace w'' = trace w' ++ evs1 ++ Called Fn_create_global_app :: evs2 ∧
      Called Fn_add_focus_handle ∈ evs1 ∧
      (Called Fn_create_global_app ∉ evs1).
Proof.
  intros Hs Hw Hnd Hc Hfirst.
  destruct (run_without_register acts w0 Hfirst Hc)
    as (w & evs0 & Hrun & Hcw & _).
  assert (orderly (environ w0) w) as (He & _ & Ho).
  { eapply run_orderly; [done..| |exact Hrun]. repeat split; [done|by left]. }
  rewrite <- He in Hs, Hw.
  destruct (register_in_order w Hs Hw Ho) as (l1 & l2 & Hr & Hl & Ha & Hc1).
  destruct (scene_loaded_in_order (registered w) l1 l2 Hl Hc1)
    as (w'' & evs & Hsl & Ht).
  exists w, (registered w), l1, l2. repeat split; try done.
  exists w'', (flat_map calls l1), evs. repeat split; try done.
  - by apply Called_flat_map_calls.
  - by rewrite Called_flat_map_calls.
Qed.

End Process.

(** Start-up on [win32] with an empty environment; a scene is loaded and a
    key arrives before the add-on is enabled. *)
Lemma register_orders_hooks_at_start :
  ∃ w w' l1 l2,
    run sample_class sample_class
        [Scene_load; Input {| _qapp := RefNone |} {| type := "A" |}]
        (fresh ∅ "win32") = Some w ∧
    register w = Ok tt w' ∧
    load_post w' = l1 ++ Fn_create_global_app :: l2 ∧
    Fn_add_focus_handle ∈ l1 ∧
    (Fn_create_global_app ∉ l1) ∧
    ∃ w'' evs1 evs2,
      scene_loaded sample_class sample_class w' = Some w'' ∧
      trace w'' = trace w' ++ evs1 ++ Called Fn_create_global_app :: evs2 ∧
      Called Fn_add_focus_handle ∈ evs1 ∧
      (Called Fn_create_global_app ∉ evs1).
Proof.
  apply (register_orders_hooks sample_class sample_class
           [Scene_load; Input {| _qapp := RefNone |} {| type := "A" |}]
           (fresh ∅ "win32")).
  - reflexivity.
  - reflexivity.
  - apply NoDup_nil_2.
  - apply not_elem_of_nil.
  - intros H. repeat (apply elem_of_cons in H as [H|H]; [discriminate|]).
    by apply elem_of_nil in H.
Defined.

(** The hook run once after start-up, then two scene loads, a key and an
    [unregister]. *)
Lemma create_global_app_runs_once_at_start :
  (Fn_create_global_app ∉ load_post wrapped_at_start) ∧
  ∃ w'' evs,
    run sample_class sample_class
        [Scene_load; Input {| _qapp := RefNone |} {| type := "A" |};
         Unregister; Scene_load] wrapped_at_start = Some w'' ∧
    (Fn_create_global_app ∉ load_post w'') ∧
    trace w'' = trace wrapped_at_start ++ evs ∧
    (Called Fn_create_global_app ∉ evs).
Proof.
  apply (create_global_app_runs_once_until_register
           sample_class sample_class registered_at_start).
  - apply (bool_decide_unpack _). vm_compute. exact I.
  - reflexivity.
  - intros H. repeat (apply elem_of_cons in H as [H|H]; [discriminate|]).
    by apply elem_of_nil in H.
Defined.

(** C1, as the claim has it, fails when [register] is called once more
    after the hook has run.  Started with [BQT_DISABLE_WRAP=1]: [register]
    and a scene load run the hook, which returns normally and leaves the
    list; a second [register] puts it back, and the next scene load runs
    it a second time. *)
Lemma create_global_app_back_after_register :
  ∃ w1 w2 w3,
    run sample_class sample_class [Register; Scene_load] wrap_disabled_world
      = Some w1 ∧
    trace w1 = Called Fn_create_global_app :: dpi_calls ∧
    (Fn_create_global_app ∉ load_post w1) ∧
    step sample_class sample_class Register w1 = Some w2 ∧
    Fn_create_global_app ∈ load_post w2 ∧
    step sample_class sample_class Scene_load w2 = Some w3 ∧
    filter (λ e, e = Called Fn_create_global_app) (trace w3)
      = [Called Fn_create_global_app; Called Fn_create_global_app].
Proof.
  eexists _, _, _.
  split; [vm_compute; reflexivity|]. split; [reflexivity|].
  split; [apply not_elem_of_nil|].
  split; [vm_compute; reflexivity|]. split; [set_solver|].
  split; [vm_compute; reflexivity|]. by vm_compute.
Qed.

(** * Further properties of the module *)

(** ** The keyboard workaround, case by case *)

(** X1.  With the application there and [just_focused] not set, the call
    returns normally and leaves the world exactly as it found it, whatever
    the event: no key-up, no line printed. *)
Theorem detect_keyboard_unfocused_is_silent self event w a :
  QApplication_instance w = Some a →
  just_focused a = false →
  detect_keyboard self event w = Ok {| _qapp := RefApplication |} w.
Proof. intros Hw Hf. by rewrite detect_keyboard_cases, Hw, Hf. Qed.

(** The Control key, pressed while nothing is pending. *)
Lemma detect_keyboard_unfocused_is_silent_on_ctrl :
  detect_keyboard {| _qapp := RefNone |} {| type := "LEFT_CTRL" |} idle_world
  = Ok {| _qapp := RefApplication |} idle_world.
Proof.
  apply (detect_keyboard_unfocused_is_silent
           {| _qapp := RefNone |} {| type := "LEFT_CTRL" |} idle_world
           sample_application).
  - reflexivity.
  - reflexivity.
Defined.

Lemma released_sublist event : sublist (released event) keycodes.*2.
Proof.
  unfold released. induction keycodes as [|[name code] l IH]; cbn; [done|].
  destruct (contains name (type event)); cbn.
  - by apply sublist_cons.
  - by apply sublist_skip.
Qed.

Lemma elem_of_key_up code (l : list Z) :
  key_up code ∈ key_up <$> l ↔ code ∈ l.
Proof.
  rewrite list_elem_of_fmap. split.
  - by intros (c & [= ->] & Hc).
  - intros Hc. by exists code.
Qed.

(** X2.  On Windows, with the application there and [just_focused] set,
    for every event type: the call returns normally and clears
    [just_focused]; what it emits is a selection of the five key-ups of
    the table, in table order; and the key-up of a table entry is among
    them exactly when the name of that entry does not occur in the type of
    the event. *)
Theorem detect_keyboard_releases_exactly self event w a :
  platform w = "win32" →
  QApplication_instance w = Some a →
  just_focused a = true →
  ∃ self' w' evs,
    detect_keyboard self event w = Ok self' w' ∧
    trace w' = trace w ++ evs ∧
    sublist evs (key_up <$> keycodes.*2) ∧
    (∀ name code, (name, code) ∈ keycodes →
       key_up code ∈ evs ↔ contains name (type event) = false) ∧
    QApplication_instance w' = Some (unfocus a).
Proof.
  intros Hp Hw Hf. rewrite detect_keyboard_cases, Hw, Hf, Hp.
  replace (String.eqb "win32" "win32") with true by done.
  eexists _, _, (key_up <$> released event).
  split; [reflexivity|]. repeat split.
  - apply fmap_sublist, released_sublist.
  - intros Hin%elem_of_key_up.
    destruct (contains name (type event)) eqn:E; [|done].
    by destruct (released_skips event name code).
  - intros Hc. apply elem_of_key_up, elem_of_released. by exists name.
Qed.

(** The key [LEFT_ALT], pressed after the window has regained focus. *)
Lemma detect_keyboard_releases_exactly_on_alt :
  ∃ self' w' evs,
    detect_keyboard {| _qapp := RefNone |} {| type := "LEFT_ALT" |}
                    focused_world = Ok self' w' ∧
    trace w' = trace focused_world ++ evs ∧
    sublist evs (key_up <$> keycodes.*2) ∧
    (∀ name code, (name, code) ∈ keycodes →
       key_up code ∈ evs ↔ contains name "LEFT_ALT" = false) ∧
    QApplication_instance w'
    = Some (unfocus {| just_focused := true;
                       _blender_window := {| parent := Some 7 |} |}).
Proof.
  apply (detect_keyboard_releases_exactly
           {| _qapp := RefNone |} {| type := "LEFT_ALT" |} focused_world).
  - reflexivity.
  - reflexivity.
  - reflexivity.
Defined.

(** X3.  The releases come once for each gain of focus: with the
    application there, a call that follows another call finds nothing to
    do and leaves the world as the first call left it, whatever the two
    events are. *)
Theorem detect_keyboard_once_per_focus self1 event1 self2 event2 w a :
  QApplication_instance w = Some a →
  detect_keyboard self2 event2 (final (detect_keyboard self1 event1 w))
  = Ok {| _qapp := RefApplication |} (final (detect_keyboard self1 event1 w)).
Proof.
  intros Hw. rewrite (detect_keyboard_cases self1), Hw.
  destruct (just_focused a) eqn:Hf.
  - destruct (String.eqb (platform w) "win32");
      [|destruct (released event1)]; cbn [final];
      by rewrite detect_keyboard_cases.
  - cbn [final]. by rewrite detect_keyboard_cases, Hw, Hf.
Qed.

(** Two keys in a row after the window has regained focus. *)
Lemma detect_keyboard_once_per_focus_on_A_B :
  detect_keyboard {| _qapp := RefNone |} {| type := "B" |}
    (final (detect_keyboard {| _qapp := RefNone |} {| type := "A" |}
                            focused_world))
  = Ok {| _qapp := RefApplication |}
       (final (detect_keyboard {| _qapp := RefNone |} {| type := "A" |}
                               focused_world)).
Proof.
  apply (detect_keyboard_once_per_focus
           {| _qapp := RefNone |} {| type := "A" |}
           {| _qapp := RefNone |} {| type := "B" |} focused_world
           {| just_focused := true;
              _blender_window := {| parent := Some 7 |} |}).
  reflexivity.
Defined.

(** X4.  On Windows [modal] never raises and never keeps an event to
    itself: in every world and for every event it returns [PASS_THROUGH],
    and the world it leaves is the one [detect_keyboard] leaves. *)
Theorem modal_passes_through self event w :
  platform w = "win32" →
  ∃ self',
    modal self event w
    = Ok (self', "PASS_THROUGH") (final (detect_keyboard self event w)).
Proof.
  intros Hp. unfold modal, bind. rewrite detect_keyboard_cases, Hp.
  replace (String.eqb "win32" "win32") with true by done.
  destruct (QApplication_instance w) as [a|]; [destruct (just_focused a)|];
    by eexists.
Qed.

(** Any key on Windows, with the releases pending. *)
Lemma modal_passes_through_on_A :
  ∃ self',
    modal {| _qapp := RefNone |} {| type := "A" |} focused_world
    = Ok (self', "PASS_THROUGH")
         (final (detect_keyboard {| _qapp := RefNone |} {| type := "A" |}
                                 focused_world)).
Proof.
  apply (modal_passes_through
           {| _qapp := RefNone |} {| type := "A" |} focused_world).
  reflexivity.
Defined.

(** X24.  Off Windows the workaround cannot release a key.  With the
    application there and [just_focused] set, as soon as some name of the
    table does not occur in the type of the event, [detect_keyboard]
    clears [just_focused] and ends with an [AttributeError] at
    [ctypes.windll]: it emits nothing, and [modal] ends with the same
    exception instead of passing the event through. *)
Theorem detect_keyboard_raises_off_windows self event w a name code :
  platform w ≠ "win32" →
  QApplication_instance w = Some a →
  just_focused a = true →
  (name, code) ∈ keycodes →
  contains name (type event) = false →
  detect_keyboard self event w
  = Raise windll_missing (set_instance (Some (unfocus a)) w) ∧
  modal self event w
  = Raise windll_missing (set_instance (Some (unfocus a)) w) ∧
  trace (set_instance (Some (unfocus a)) w) = trace w.
Proof.
  intros Hp Hw Hf Hin Hc.
  assert (detect_keyboard self event w
          = Raise windll_missing (set_instance (Some (unfocus a)) w)) as Hd.
  { rewrite detect_keyboard_cases, Hw, Hf.
    destruct (String.eqb_spec (platform w) "win32"); [done|].
    destruct (released event) eqn:E; [|done].
    assert (code ∈ released event) as Hr
      by (apply elem_of_released; by exists name).
    rewrite E in Hr. by apply elem_of_nil in Hr. }
  split; [done|]. split; [|done].
  unfold modal, bind. by rewrite Hd.
Qed.

(** The key [A] on [darwin], with the releases pending. *)
Lemma detect_keyboard_raises_off_windows_on_A :
  detect_keyboard {| _qapp := RefNone |} {| type := "A" |} focused_on_darwin
  = Raise windll_missing
      (set_instance
         (Some (unfocus {| just_focused := true;
                           _blender_window := {| parent := Some 7 |} |}))
         focused_on_darwin) ∧
  modal {| _qapp := RefNone |} {| type := "A" |} focused_on_darwin
  = Raise windll_missing
      (set_instance
         (Some (unfocus {| just_focused := true;
                           _blender_window := {| parent := Some 7 |} |}))
         focused_on_darwin) ∧
  trace (set_instance
           (Some (unfocus {| just_focused := true;
                             _blender_window := {| parent := Some 7 |} |}))
           focused_on_darwin)
  = trace focused_on_darwin.
Proof.
  apply (detect_keyboard_raises_off_windows
           {| _qapp := RefNone |} {| type := "A" |} focused_on_darwin
           {| just_focused := true;
              _blender_window := {| parent := Some 7 |} |}
           "_ALT" 0x12).
  - discriminate.
  - reflexivity.
  - reflexivity.
  - apply elem_of_cons. by left.
  - reflexivity.
Defined.

(** ** The environment switches *)

(** X5.  With [BQT_DISABLE_STARTUP] set to a non-empty value, [register]
    returns at once: the world is left exactly as it was, whatever
    [BQT_DISABLE_WRAP] says. *)
Theorem register_startup_disabled w v :
  environ w !! "BQT_DISABLE_STARTUP" = Some v →
  v ≠ "" →
  register w = Ok tt w.
Proof.
  intros Hs Hv. rewrite register_cases.
  unfold startup_disabled, env_value. rewrite Hs. cbn.
  by destruct (String.eqb_spec v "").
Qed.

(** Start-up with [BQT_DISABLE_STARTUP=1]. *)
Lemma register_startup_disabled_at_start :
  register (fresh {[ "BQT_DISABLE_STARTUP" := "1" ]} "win32")
  = Ok tt (fresh {[ "BQT_DISABLE_STARTUP" := "1" ]} "win32").
Proof.
  apply (register_startup_disabled
           (fresh {[ "BQT_DISABLE_STARTUP" := "1" ]} "win32") "1").
  - reflexivity.
  - discriminate.
Defined.

(** X6.  A variable that is set to the empty string counts as not set:
    with both variables empty, [register] does the full set-up, operator
    class and both hooks. *)
Theorem register_empty_values_count_as_unset w :
  environ w !! "BQT_DISABLE_STARTUP" = Some "" →
  environ w !! "BQT_DISABLE_WRAP" = Some "" →
  ∃ w',
    register w = Ok tt w' ∧
    trace w' = trace w ++ [Register_class "QFocusOperator"] ∧
    Fn_add_focus_handle ∈ load_post w' ∧
    Fn_create_global_app ∈ load_post w' ∧
    atexit_registry w' = atexit_registry w ++ [Fn_on_exit].
Proof.
  intros Hs Hw. rewrite register_cases.
  unfold startup_disabled, env_value. rewrite Hs. cbn.
  eexists. split; [reflexivity|]. cbn.
  unfold wrap_disabled, env_value. rewrite Hw. cbn. repeat split.
  - apply elem_of_append_absent. right. apply elem_of_append_absent. by left.
  - apply elem_of_append_absent. by left.
Qed.

(** Start-up with both variables exported empty. *)
Lemma register_empty_values_at_start :
  ∃ w',
    register empty_values_world = Ok tt w' ∧
    trace w' = trace empty_values_world ++ [Register_class "QFocusOperator"] ∧
    Fn_add_focus_handle ∈ load_post w' ∧
    Fn_create_global_app ∈ load_post w' ∧
    atexit_registry w' = atexit_registry empty_values_world ++ [Fn_on_exit].
Proof.
  apply (register_empty_values_count_as_unset empty_values_world).
  - reflexivity.
  - reflexivity.
Defined.

Lemma register_with_wrap_disabled_parts w v :
  environ w !! "BQT_DISABLE_STARTUP" = None →
  environ w !! "BQT_DISABLE_WRAP" = Some v →
  v ≠ "" →
  register w = Ok tt (registered w) ∧
  trace (registered w) = trace w ∧
  (Fn_add_focus_handle ∈ load_post (registered w) →
   Fn_add_focus_handle ∈ load_post w) ∧
  environ (registered w) = environ w.
Proof.
  intros Hs Hw Hv. rewrite register_cases, (startup_disabled_unset w Hs).
  cbn. rewrite (wrap_disabled_set w v Hw Hv). repeat split.
  by intros [|]%elem_of_append_absent.
Qed.

(** X7.  The two functions read [BQT_DISABLE_WRAP] differently.  For a
    value that is neither empty nor ["1"], ["0"] for one, [register] takes
    wrapping to be disabled and makes no call to register the operator
    class, while [unregister] takes it to be enabled and goes for the
    branch that unregisters the class, where it stops at [focus]. *)
Theorem wrap_switch_is_read_two_ways w v :
  environ w !! "BQT_DISABLE_STARTUP" = None →
  environ w !! "BQT_DISABLE_WRAP" = Some v →
  v ≠ "" →
  v ≠ "1" →
  ∃ w',
    register w = Ok tt w' ∧
    trace w' = trace w ∧
    (Fn_add_focus_handle ∈ load_post w' →
     Fn_add_focus_handle ∈ load_post w) ∧
    unregister w' = Raise (NameError "focus") w'.
Proof.
  intros Hs Hw Hv H1.
  destruct (register_with_wrap_disabled_parts w v Hs Hw Hv)
    as (Hr & Ht & Ha & He).
  exists (registered w). repeat split; try done.
  apply unregister_raises. rewrite He, Hw. by intros [= ->].
Qed.

(** Start-up with [BQT_DISABLE_WRAP=0]. *)
Lemma wrap_switch_is_read_two_ways_at_0 :
  ∃ w',
    register wrap_zero_world = Ok tt w' ∧
    trace w' = trace wrap_zero_world ∧
    (Fn_add_focus_handle ∈ load_post w' →
     Fn_add_focus_handle ∈ load_post wrap_zero_world) ∧
    unregister w' = Raise (NameError "focus") w'.
Proof.
  apply (wrap_switch_is_read_two_ways wrap_zero_world "0").
  - reflexivity.
  - reflexivity.
  - discriminate.
  - discriminate.
Defined.

(** ** What [register] and [unregister] do to the handler list *)

Lemma append_absent_prefix f l : l `prefix_of` append_absent f l.
Proof.
  unfold append_absent. case_bool_decide; [done|]. by apply prefix_app_r.
Qed.

Lemma append_absent_length f l :
  (length (append_absent f l) ≤ S (length l))%nat.
Proof.
  unfold append_absent. case_bool_decide; [lia|].
  rewrite length_app. cbn. lia.
Qed.

(** X8.  In every environment [register] only ever adds at the end of the
    list: the handlers it finds keep their places, at most two handlers
    are added behind them, and those are the module's own two hooks. *)
Theorem register_only_appends w :
  load_post w `prefix_of` load_post (final (register w)) ∧
  (length (load_post (final (register w))) ≤ length (load_post w) + 2)%nat ∧
  ∀ f, f ∈ load_post (final (register w)) →
       f ∈ load_post w ∨ f = Fn_add_focus_handle ∨ f = Fn_create_global_app.
Proof.
  rewrite register_cases. cbn [final].
  destruct (startup_disabled w); [split; [done|]; split; [lia|auto]|].
  cbn [registered load_post]. destruct (wrap_disabled w).
  - split; [apply append_absent_prefix|]. split.
    + pose proof (append_absent_length Fn_create_global_app (load_post w)).
      lia.
    + intros f [->|Hf]%elem_of_append_absent; auto.
  - split; [|split].
    + etrans; apply append_absent_prefix.
    + pose proof (append_absent_length Fn_add_focus_handle (load_post w)).
      pose proof (append_absent_length Fn_create_global_app
                    (append_absent Fn_add_focus_handle (load_post w))).
      lia.
    + intros f [->|[->|Hf]%elem_of_append_absent]%elem_of_append_absent;
        auto.
Qed.

(** X9.  In every environment, however many times [register] is called
    again after the first call, the handler list stays as the first call
    left it. *)
Theorem register_again_adds_no_handler n w :
  load_post (register_times (S n) w) = load_post (register_times 1 w).
Proof.
  induction n as [|n IH]; [done|].
  rewrite <- IH. cbn [register_times].
  apply register_twice_load_post.
Qed.

Lemma filter_without (P : callback → Prop) `{∀ x, Decision (P x)} f l :
  ¬ P f → filter P (without f l) = filter P l.
Proof.
  intros Hf. unfold without.
  destruct (decide (f ∈ l)) as [Hin|Hout].
  - destruct (remove_first_Some f l Hin) as (l1 & l2 & -> & _ & ->). cbn.
    by rewrite !filter_app, filter_cons_False.
  - by rewrite remove_first_None.
Qed.

Lemma without_length f l : (length l ≤ S (length (without f l)))%nat.
Proof.
  unfold without. destruct (remove_first f l) as [l'|] eqn:E; cbn; [|lia].
  apply remove_first_length in E. lia.
Qed.

Lemma without_NoDup_absent f l : NoDup l → f ∉ without f l.
Proof.
  intros Hnd. unfold without.
  destruct (remove_first f l) as [l'|] eqn:E; cbn.
  - by eapply remove_first_NoDup_absent.
  - intros Hin. destruct (remove_first_Some f l Hin) as (? & ? & _ & _ & E').
    congruence.
Qed.

Lemma exit_registry_cleared (l : list exitfunc) :
  Fn_on_exit ∉ filter (λ g, g ≠ Fn_on_exit) l.
Proof. by intros [? _]%list_elem_of_filter. Qed.

(** X10.  With [BQT_DISABLE_WRAP=1], [unregister] returns normally.  The
    handlers of other add-ons stay in the list, in their order; of each of
    the module's two hooks it removes one occurrence, the first, so the
    list shrinks by two at most and, when it had no duplicates, holds
    neither hook any more.  Every registration of [on_exit] is dropped and
    nothing is added to the trace. *)
Theorem unregister_with_wrap_1 w :
  environ w !! "BQT_DISABLE_WRAP" = Some "1" →
  ∃ w',
    unregister w = Ok tt w' ∧
    filter (λ f, f ≠ Fn_create_global_app ∧ f ≠ Fn_add_focus_handle)
           (load_post w')
    = filter (λ f, f ≠ Fn_create_global_app ∧ f ≠ Fn_add_focus_handle)
             (load_post w) ∧
    sublist (load_post w') (load_post w) ∧
    (length (load_post w) ≤ length (load_post w') + 2)%nat ∧
    (NoDup (load_post w) →
     (Fn_create_global_app ∉ load_post w') ∧
     (Fn_add_focus_handle ∉ load_post w')) ∧
    (Fn_on_exit ∉ atexit_registry w') ∧
    trace w' = trace w.
Proof.
  intros Hw. rewrite unregister_cases.
  unfold wrap_is_1, env_value. rewrite Hw. cbn [from_option py_eq String.eqb].
  replace (String.eqb "1" "1") with true by done.
  eexists. split; [reflexivity|]. cbn. repeat split.
  - rewrite !filter_without; [done|tauto..].
  - etrans; apply without_sublist.
  - pose proof (without_length Fn_create_global_app (load_post w)).
    pose proof (without_length Fn_add_focus_handle
                  (without Fn_create_global_app (load_post w))).
    lia.
  - intros Hc%(elem_of_sublist _ _ _)%without_NoDup_absent; [done..|].
    apply without_sublist.
  - by apply without_NoDup_absent, without_NoDup.
  - apply exit_registry_cleared.
Qed.

(** A list that other add-ons share, with [on_exit] registered twice. *)
Lemma unregister_with_wrap_1_in_a_crowd :
  ∃ w',
    unregister crowded_world = Ok tt w' ∧
    filter (λ f, f ≠ Fn_create_global_app ∧ f ≠ Fn_add_focus_handle)
           (load_post w')
    = filter (λ f, f ≠ Fn_create_global_app ∧ f ≠ Fn_add_focus_handle)
             (load_post crowded_world) ∧
    sublist (load_post w') (load_post crowded_world) ∧
    (length (load_post crowded_world) ≤ length (load_post w') + 2)%nat ∧
    (NoDup (load_post crowded_world) →
     (Fn_create_global_app ∉ load_post w') ∧
     (Fn_add_focus_handle ∉ load_post w')) ∧
    (Fn_on_exit ∉ atexit_registry w') ∧
    trace w' = trace crowded_world.
Proof.
  apply (unregister_with_wrap_1 crowded_world). reflexivity.
Defined.

Lemma remove_first_app f l1 l2 :
  f ∉ l1 → remove_first f (l1 ++ f :: l2) = Some (l1 ++ l2).
Proof.
  induction l1 as [|g l1 IH]; intros Hf; cbn.
  - by rewrite decide_True.
  - rewrite decide_False by set_solver. rewrite IH by set_solver. done.
Qed.

(** X11.  With [BQT_DISABLE_WRAP=1] and neither hook in the list,
    [register] followed by [unregister] gives the list and the trace back
    as they were, and leaves no [on_exit] registered. *)
Theorem register_then_unregister_with_wrap_1 w :
  environ w !! "BQT_DISABLE_STARTUP" = None →
  environ w !! "BQT_DISABLE_WRAP" = Some "1" →
  Fn_create_global_app ∉ load_post w →
  Fn_add_focus_handle ∉ load_post w →
  ∃ w1 w2,
    register w = Ok tt w1 ∧
    unregister w1 = Ok tt w2 ∧
    load_post w2 = load_post w ∧
    trace w2 = trace w ∧
    QApplication_instance w2 = QApplication_instance w ∧
    parent_window w2 = parent_window w ∧
    (Fn_on_exit ∉ atexit_registry w2).
Proof.
  intros Hs Hw Hc Ha.
  destruct (register_with_wrap_disabled_parts w "1" Hs Hw) as (Hr & Ht & _ & He);
    [done|].
  exists (registered w), (unregistered (registered w)).
  split; [done|]. split.
  { rewrite unregister_cases. unfold wrap_is_1, env_value.
    by rewrite He, Hw. }
  cbn [unregistered load_post trace QApplication_instance parent_window
       atexit_registry].
  rewrite Ht. repeat split; [|apply exit_registry_cleared].
  cbn. rewrite (wrap_disabled_set w "1" Hw) by done.
  unfold append_absent. rewrite bool_decide_false by done.
  unfold without. rewrite remove_first_app by done. cbn.
  rewrite app_nil_r. by rewrite remove_first_None.
Qed.

(** Start-up with [BQT_DISABLE_WRAP=1]; the add-on is enabled and disabled. *)
Lemma register_then_unregister_at_start :
  ∃ w1 w2,
    register wrap_disabled_world = Ok tt w1 ∧
    unregister w1 = Ok tt w2 ∧
    load_post w2 = load_post wrap_disabled_world ∧
    trace w2 = trace wrap_disabled_world ∧
    QApplication_instance w2 = QApplication_instance wrap_disabled_world ∧
    parent_window w2 = parent_window wrap_disabled_world ∧
    (Fn_on_exit ∉ atexit_registry w2).
Proof.
  apply (register_then_unregister_with_wrap_1 wrap_disabled_world).
  - reflexivity.
  - reflexivity.
  - apply not_elem_of_nil.
  - apply not_elem_of_nil.
Defined.

(** ** Registrations of [on_exit] and the end of the process *)

Lemma register_atexit w :
  startup_disabled w = false →
  atexit_registry (final (register w)) = atexit_registry w ++ [Fn_on_exit] ∧
  startup_disabled (final (register w)) = false.
Proof. intros Hs. by rewrite register_cases, Hs. Qed.

(** X12.  Unlike the handlers, [on_exit] is registered without a look at
    what is registered already.  With [BQT_DISABLE_WRAP] set to a non-empty
    value, where [register] has no operator class to register, [n] calls
    of [register] in a row leave [n] more entries for [on_exit] in the
    exit registry. *)
Theorem register_times_atexit n w v :
  environ w !! "BQT_DISABLE_STARTUP" = None →
  environ w !! "BQT_DISABLE_WRAP" = Some v →
  v ≠ "" →
  atexit_registry (register_times n w)
  = atexit_registry w ++ replicate n Fn_on_exit ∧
  trace (register_times n w) = trace w.
Proof.
  intros Hs Hw Hv.
  assert (environ (register_times n w) = environ w
          ∧ atexit_registry (register_times n w)
            = atexit_registry w ++ replicate n Fn_on_exit
          ∧ trace (register_times n w) = trace w) as (_ & H); [|done].
  induction n as [|n (IHe & IHr & IHt)]; cbn [register_times replicate].
  - by rewrite app_nil_r.
  - rewrite <- IHe in Hs, Hw.
    destruct (register_with_wrap_disabled_parts _ v Hs Hw Hv)
      as (-> & Ht & _ & He).
    cbn [final]. rewrite He, Ht. repeat split; [done| |done].
    cbn [registered atexit_registry]. rewrite IHr, <- app_assoc. f_equal.
    clear. induction n as [|n IH]; [done|]. cbn. by rewrite IH.
Qed.

(** The add-on enabled three times over with [BQT_DISABLE_WRAP=1]. *)
Lemma register_times_atexit_3 :
  atexit_registry (register_times 3 wrap_disabled_world)
  = atexit_registry wrap_disabled_world ++ replicate 3 Fn_on_exit ∧
  trace (register_times 3 wrap_disabled_world) = trace wrap_disabled_world.
Proof.
  apply (register_times_atexit 3 wrap_disabled_world "1").
  - reflexivity.
  - reflexivity.
  - discriminate.
Defined.

Lemma on_exit_cases w :
  on_exit w =
  Ok tt (match QApplication_instance w with
         | Some _ =>
             set_trace (trace w ++ [Store_window_geometry; Application_quit]) w
         | None => w
         end).
Proof.
  unfold on_exit, bind, instance, emit, pass, ret.
  destruct (QApplication_instance w); cbn; [|done].
  unfold set_trace; cbn. by rewrite <- app_assoc.
Qed.

Lemma run_exitfuncs_cases l w :
  run_exitfuncs l w =
  match QApplication_instance w with
  | Some _ =>
      set_trace
        (trace w
         ++ flat_map (λ _, [Store_window_geometry; Application_quit]) l) w
  | None => w
  end.
Proof.
  revert w. induction l as [|[] l IH]; intros w;
    cbn [run_exitfuncs call_exitfunc flat_map].
  - destruct (QApplication_instance w); [|done].
    by rewrite app_nil_r, set_trace_id.
  - rewrite on_exit_cases, IH.
    destruct (QApplication_instance w) eqn:Hq; cbn; rewrite Hq; [|done].
    unfold set_trace; cbn. by rewrite <- app_assoc.
Qed.

(** X13.  At the end of the process [on_exit] runs once for every entry of
    the exit registry.  With an application singleton that is one
    [store_window_geometry()] followed by one [quit()] for each entry, and
    nothing else; without one the world is left as it is. *)
Theorem exit_process_runs_on_exit_per_registration w :
  exit_process w =
  match QApplication_instance w with
  | Some _ =>
      set_trace
        (trace w
         ++ flat_map (λ _, [Store_window_geometry; Application_quit])
              (atexit_registry w)) w
  | None => w
  end.
Proof.
  unfold exit_process. rewrite run_exitfuncs_cases.
  destruct (QApplication_instance w); [|done]. do 2 f_equal.
  induction (atexit_registry w) as [|f l IH]; [done|].
  rewrite reverse_cons, flat_map_app, IH. cbn.
  clear. induction l as [|g l IH]; [done|]. cbn in *. by rewrite <- IH.
Qed.

(** ** Building the application *)

Section Building.

Context (Darwin Win32 : list string → exn + BlenderApplication).

Lemma instantiate_application_cases w :
  instantiate_application Darwin Win32 w =
  match application_for Darwin Win32 w with
  | inl e => Raise e (set_trace (trace w ++ dpi_calls) w)
  | inr None => Ok RefNone (set_trace (trace w ++ dpi_calls) w)
  | inr (Some a) =>
      Ok RefApplication
         (set_instance (Some a) (set_trace (trace w ++ dpi_calls) w))
  end.
Proof.
  unfold instantiate_application, load_os_module, application_for, bind,
    emit, instance, sys_platform, construct, ret.
  destruct w as [env os args app hooks pw exits tr]; cbn.
  rewrite <- !app_assoc. cbn.
  destruct app as [a|]; cbn; [done|].
  destruct (String.eqb os "darwin"); cbn.
  { by destruct (Darwin args). }
  case_bool_decide; cbn; [done|].
  destruct (String.eqb os "win32"); cbn; [|done].
  by destruct (Win32 args).
Qed.

(** X15.  On every platform other than [darwin] and [win32], named by a
    branch or not, [load_os_module] returns [None]: it raises nothing,
    calls neither class and leaves the world as it is. *)
Theorem load_os_module_unsupported w :
  platform w ≠ "darwin" →
  platform w ≠ "win32" →
  load_os_module Darwin Win32 w = Ok RefNone w.
Proof.
  intros Hd Hw. unfold load_os_module, bind, sys_platform. cbn.
  destruct (String.eqb_spec (platform w) "darwin"); [done|].
  case_bool_decide; [done|].
  by destruct (String.eqb_spec (platform w) "win32").
Qed.

(** X16.  Whenever [create_global_app] ends with an exception, whichever
    it is, the handler list is as it was, so the hook is called again at
    the next scene load; the environment and the exit registry are as they
    were too, and the trace has grown by the three DPI calls. *)
Theorem create_global_app_failure_keeps_hook w e w' :
  create_global_app Darwin Win32 tt w = Raise e w' →
  load_post w' = load_post w ∧
  environ w' = environ w ∧
  atexit_registry w' = atexit_registry w ∧
  trace w' = trace w ++ dpi_calls.
Proof.
  rewrite create_global_app_cases.
  destruct (application_for Darwin Win32 w) as [e'|[a|]].
  - by intros [= <- <-].
  - destruct (remove_first _ (load_post w)); [done|]. by intros [= <- <-].
  - by intros [= <- <-].
Qed.

(** X17.  When [create_global_app] returns normally, the application
    singleton exists, the one that was there before if there was one;
    [parent_window] holds the parent of its window; the list has lost the
    first occurrence of the hook and nothing else; the exit registry is
    as it was. *)
Theorem create_global_app_success w w' :
  create_global_app Darwin Win32 tt w = Ok tt w' →
  ∃ a l1 l2,
    QApplication_instance w' = Some a ∧
    (∀ b, QApplication_instance w = Some b → a = b) ∧
    parent_window w' = parent (_blender_window a) ∧
    load_post w = l1 ++ Fn_create_global_app :: l2 ∧
    (Fn_create_global_app ∉ l1) ∧
    load_post w' = l1 ++ l2 ∧
    atexit_registry w' = atexit_registry w ∧
    trace w' = trace w ++ dpi_calls.
Proof.
  intros (a & l & Ha & Hl & ->)%create_global_app_returns.
  destruct (decide (Fn_create_global_app ∈ load_post w)) as [Hin|Hout];
    [|by rewrite remove_first_None in Hl].
  destruct (remove_first_Some _ _ Hin) as (l1 & l2 & E & Hl1 & Hr).
  exists a, l1, l2. rewrite Hr in Hl. injection Hl as <-.
  repeat split; try done.
  intros b Hb. unfold application_for in Ha. rewrite Hb in Ha. congruence.
Qed.

(** X18.  The removal at the end of [create_global_app] is not guarded.
    Called while it is not in the list and with the application there, the
    hook sets [parent_window] and then ends with the [ValueError] of
    [list.remove]. *)
Theorem create_global_app_unregistered_raises w a :
  Fn_create_global_app ∉ load_post w →
  QApplication_instance w = Some a →
  ∃ w',
    create_global_app Darwin Win32 tt w
    = Raise (ValueError "list.remove(x): x not in list") w' ∧
    parent_window w' = parent (_blender_window a) ∧
    QApplication_instance w' = Some a ∧
    load_post w' = load_post w.
Proof.
  intros Hc Hq. rewrite create_global_app_cases.
  unfold application_for. rewrite Hq, remove_first_None by done.
  by eexists.
Qed.

End Building.

(** X14.  [instantiate_application] builds at most one application.
    When a call has returned, what a second call does is the same whatever
    the two platform classes would build or raise at that time: it returns
    the same reference and changes nothing in the world beyond repeating
    the three calls that set the DPI options.  The application of the
    first call is the one that stays. *)
Theorem instantiate_application_builds_once
    (Darwin Win32 Darwin' Win32' : list string → exn + BlenderApplication)
    w r w1 :
  instantiate_application Darwin Win32 w = Ok r w1 →
  instantiate_application Darwin' Win32' w1
  = Ok r (set_trace (trace w1 ++ dpi_calls) w1).
Proof.
  rewrite (instantiate_application_cases Darwin Win32 w).
  destruct (application_for Darwin Win32 w) as [e|[a|]] eqn:E; [done| |].
  - intros [= <- <-]. by rewrite instantiate_application_cases.
  - intros [= <- <-]. rewrite instantiate_application_cases.
    unfold application_for in *. cbn [QApplication_instance platform argv
      set_trace] in *.
    destruct (QApplication_instance w); [done|].
    destruct (String.eqb (platform w) "darwin").
    { by destruct (Darwin (argv w)). }
    case_bool_decide; [done|].
    destruct (String.eqb (platform w) "win32"); [|done].
    by destruct (Win32 (argv w)).
Qed.

(** Two calls in a row at start-up on [win32], the second with classes
    that can only raise. *)
Lemma instantiate_application_builds_once_at_start :
  instantiate_application failing_class failing_class built_at_start
  = Ok RefApplication
       (set_trace (trace built_at_start ++ dpi_calls) built_at_start).
Proof.
  apply (instantiate_application_builds_once sample_class sample_class
           failing_class failing_class
           (fresh ∅ "win32") RefApplication built_at_start).
  reflexivity.
Defined.

(** A platform that no branch names. *)
Lemma load_os_module_unsupported_on_freebsd :
  load_os_module sample_class sample_class (fresh ∅ "freebsd13")
  = Ok RefNone (fresh ∅ "freebsd13").
Proof.
  apply (load_os_module_unsupported sample_class sample_class
           (fresh ∅ "freebsd13")).
  - discriminate.
  - discriminate.
Defined.

(** The hook on [linux], where no application comes to be. *)
Lemma create_global_app_failure_keeps_hook_on_linux :
  load_post failed_on_linux = load_post registered_on_linux ∧
  environ failed_on_linux = environ registered_on_linux ∧
  atexit_registry failed_on_linux = atexit_registry registered_on_linux ∧
  trace failed_on_linux = trace registered_on_linux ++ dpi_calls.
Proof.
  apply (create_global_app_failure_keeps_hook sample_class sample_class
           registered_on_linux
           (AttributeError "NoneType" "_blender_window") failed_on_linux).
  reflexivity.
Defined.

(** The hook at the first scene load on [win32]. *)
Lemma create_global_app_success_at_start :
  ∃ a l1 l2,
    QApplication_instance wrapped_at_start = Some a ∧
    (∀ b, QApplication_instance registered_at_start = Some b → a = b) ∧
    parent_window wrapped_at_start = parent (_blender_window a) ∧
    load_post registered_at_start = l1 ++ Fn_create_global_app :: l2 ∧
    (Fn_create_global_app ∉ l1) ∧
    load_post wrapped_at_start = l1 ++ l2 ∧
    atexit_registry wrapped_at_start = atexit_registry registered_at_start ∧
    trace wrapped_at_start = trace registered_at_start ++ dpi_calls.
Proof.
  apply (create_global_app_success sample_class sample_class
           registered_at_start wrapped_at_start).
  reflexivity.
Defined.

(** The hook called by hand after it has removed itself. *)
Lemma create_global_app_unregistered_raises_when_idle :
  ∃ w',
    create_global_app sample_class sample_class tt idle_world
    = Raise (ValueError "list.remove(x): x not in list") w' ∧
    parent_window w' = parent (_blender_window sample_application) ∧
    QApplication_instance w' = Some sample_application ∧
    load_post w' = load_post idle_world.
Proof.
  apply (create_global_app_unregistered_raises sample_class sample_class
           idle_world sample_application).
  - intros H. apply elem_of_cons in H as [H|H]; [discriminate|].
    by apply elem_of_nil in H.
  - reflexivity.
Defined.

(** ** Scene loads *)

Section Scenes.

Context (Darwin Win32 : list string → exn + BlenderApplication).

Lemma scene_loaded_inert w :
  Fn_create_global_app ∉ load_post w →
  scene_loaded Darwin Win32 w
  = Some (set_trace (trace w ++ flat_map calls (load_post w)) w).
Proof.
  intros Hc. unfold scene_loaded.
  pose proof (run_load_post_inert Darwin Win32 (load_post w) [] [] w 0)
    as Hwalk.
  rewrite app_nil_r, Nat.add_0_r in Hwalk. cbn [length app Nat.add] in Hwalk.
  rewrite Hwalk by done. cbn [run_load_post].
  by rewrite lookup_ge_None_2.
Qed.

Lemma run_handler_wraps w a l :
  application_for Darwin Win32 w = inr (Some a) →
  remove_first Fn_create_global_app (load_post w) = Some l →
  run_handler Darwin Win32 Fn_create_global_app w
  = wrapped a l (set_trace (trace w ++ [Called Fn_create_global_app]) w).
Proof.
  intros Ha Hl. unfold run_handler, bind, emit. cbn [call].
  rewrite create_global_app_cases.
  change (application_for Darwin Win32 (set_trace _ w))
    with (application_for Darwin Win32 w).
  rewrite Ha. cbn [load_post set_trace]. by rewrite Hl.
Qed.

Lemma scene_loaded_wraps w a l1 l2 :
  load_post w = l1 ++ Fn_create_global_app :: l2 →
  Fn_create_global_app ∉ l1 →
  Fn_create_global_app ∉ l2 →
  application_for Darwin Win32 w = inr (Some a) →
  ∃ w',
    scene_loaded Darwin Win32 w = Some w' ∧
    trace w' = trace w ++ flat_map calls l1
               ++ Called Fn_create_global_app :: dpi_calls
               ++ flat_map calls (drop 1 l2) ∧
    load_post w' = l1 ++ l2 ∧
    QApplication_instance w' = Some a ∧
    parent_window w' = parent (_blender_window a).
Proof.
  intros Hl Hc1 Hc2 Ha. unfold scene_loaded.
  replace (length (load_post w)) with (length l1 + S (length l2))%nat
    by (rewrite Hl, length_app; done).
  pose proof (run_load_post_inert Darwin Win32 l1 []
                (Fn_create_global_app :: l2) w (S (length l2)) Hl Hc1)
    as Hwalk.
  cbn [length app Nat.add] in Hwalk. rewrite Hwalk. clear Hwalk.
  set (w1 := set_trace _ w).
  assert (load_post w1 !! length l1 = Some Fn_create_global_app) as Hlook.
  { change (load_post w1) with (load_post w). rewrite Hl.
    by apply list_lookup_middle. }
  cbn [run_load_post]. rewrite Hlook.
  rewrite (run_handler_wraps w1 a (l1 ++ l2)); [|done|]; cycle 1.
  { change (load_post w1) with (load_post w). rewrite Hl.
    by apply remove_first_app. }
  set (w2 := wrapped a (l1 ++ l2) _).
  destruct l2 as [|f l2].
  - exists w2. cbn [length run_load_post drop flat_map].
    rewrite lookup_ge_None_2 by (cbn; rewrite length_app; cbn; lia).
    split; [done|]. subst w2 w1. cbn. rewrite <- !app_assoc. cbn.
    by rewrite app_nil_r.
  - assert (Fn_create_global_app ∉ l2) as Hc3 by set_solver.
    pose proof (run_load_post_inert Darwin Win32 l2 (l1 ++ [f]) [] w2 1)
      as Hwalk.
    rewrite length_app in Hwalk. cbn [length] in Hwalk.
    replace (S (length l1)) with (length l1 + 1)%nat by lia.
    replace (length (f :: l2)) with (length l2 + 1)%nat by (cbn; lia).
    rewrite Hwalk; [|by (subst w2; cbn; rewrite <- !app_assoc, app_nil_r)
                    |done].
    set (w3 := set_trace _ w2). exists w3. cbn [run_load_post].
    rewrite lookup_ge_None_2
      by (subst w3 w2; cbn; rewrite length_app; cbn; lia).
    split; [done|]. subst w3 w2 w1. cbn. rewrite <- !app_assoc. cbn.
    by rewrite drop_0.
Qed.

(** X19.  Once the window-wrap hook is gone from the list, every scene
    load calls each handler of the list once, in list order, and changes
    nothing in the world but the trace: [n] scene loads in a row leave the
    list as it is and add the calls of the list [n] times over. *)
Theorem scene_loads_without_hook n w :
  Fn_create_global_app ∉ load_post w →
  run Darwin Win32 (replicate n Scene_load) w
  = Some (set_trace
            (trace w ++ mjoin (replicate n (flat_map calls (load_post w))))
            w).
Proof.
  revert w. induction n as [|n IH]; intros w Hc; cbn [replicate run step].
  - cbn. by rewrite app_nil_r, set_trace_id.
  - rewrite scene_loaded_inert by done.
    rewrite IH by done. cbn [load_post trace set_trace mjoin list_join].
    by rewrite set_trace_set_trace, <- app_assoc.
Qed.

(** X20.  The scene load at which the hook wraps the window.  The hook
    succeeds and leaves the list; the host goes on at the next position of
    the list as it now is, so the handler [f] that stood right behind the
    hook is passed over: it is not called at this scene load, while the
    hook and every handler ahead of the hook or behind [f] are called. *)
Theorem scene_loaded_wraps_and_skips_next w a f l1 l2 :
  load_post w = l1 ++ Fn_create_global_app :: f :: l2 →
  Fn_create_global_app ∉ l1 →
  Fn_create_global_app ∉ f :: l2 →
  f ∉ l1 ++ l2 →
  application_for Darwin Win32 w = inr (Some a) →
  ∃ w' evs,
    scene_loaded Darwin Win32 w = Some w' ∧
    trace w' = trace w ++ evs ∧
    Called Fn_create_global_app ∈ evs ∧
    (Called f ∉ evs) ∧
    (∀ g, g ∈ l1 ++ l2 → Called g ∈ evs) ∧
    load_post w' = l1 ++ f :: l2.
Proof.
  intros Hl Hc1 Hc2 Hf Ha.
  destruct (scene_loaded_wraps w a l1 (f :: l2) Hl Hc1 Hc2 Ha)
    as (w' & Hs & Ht & Hl' & _).
  eexists w', _. split; [done|]. split; [exact Ht|].
  apply not_elem_of_cons in Hc2 as [Hne Hc2].
  apply not_elem_of_app in Hf as [Hf1 Hf2]. cbn [drop].
  rewrite drop_0. repeat split; [| | |done].
  - apply elem_of_app. right. by left.
  - rewrite elem_of_app, elem_of_cons, elem_of_app, !Called_flat_map_calls.
    intros [?|[[= ->]|[Hd|?]]]; try done.
    unfold dpi_calls in Hd.
    repeat (apply elem_of_cons in Hd as [Hd|Hd]; [discriminate|]).
    by apply elem_of_nil in Hd.
  - intros g [Hg|Hg]%elem_of_app.
    + apply elem_of_app. left. by apply Called_flat_map_calls.
    + apply elem_of_app. right. apply elem_of_cons. right.
      apply elem_of_app. right. by apply Called_flat_map_calls.
Qed.

(** X22.  Start-up from beginning to end.  In a process with neither
    variable set, an empty handler list and a platform class that builds
    the application: [register] and the first scene load call
    [add_focus_handle] and then [create_global_app], which wraps the
    window and leaves the list; the second scene load calls
    [add_focus_handle] alone. *)
Theorem start_up_then_second_scene w a :
  environ w !! "BQT_DISABLE_STARTUP" = None →
  environ w !! "BQT_DISABLE_WRAP" = None →
  load_post w = [] →
  application_for Darwin Win32 w = inr (Some a) →
  ∃ w',
    run Darwin Win32 [Register; Scene_load; Scene_load] w = Some w' ∧
    trace w' = trace w
               ++ [Register_class "QFocusOperator"]
               ++ calls Fn_add_focus_handle
               ++ Called Fn_create_global_app :: dpi_calls
               ++ calls Fn_add_focus_handle ∧
    load_post w' = [Fn_add_focus_handle] ∧
    QApplication_instance w' = Some a ∧
    parent_window w' = parent (_blender_window a).
Proof.
  intros Hs Hw Hl Ha. cbn [run step].
  rewrite register_cases, (startup_disabled_unset w Hs). cbn [final].
  assert (load_post (registered w)
          = [Fn_add_focus_handle] ++ Fn_create_global_app :: []) as Hr.
  { cbn. by rewrite (wrap_disabled_unset w Hw), Hl. }
  destruct (scene_loaded_wraps (registered w) a [Fn_add_focus_handle] [])
    as (w1 & -> & Ht1 & Hl1 & Hq1 & Hp1); [done| | |done|].
  { intros H. apply elem_of_cons in H as [H|H]; [discriminate|].
    by apply elem_of_nil in H. }
  { apply not_elem_of_nil. }
  rewrite scene_loaded_inert; cycle 1.
  { rewrite Hl1. intros H. apply elem_of_cons in H as [H|H]; [discriminate|].
    by apply elem_of_nil in H. }
  eexists. split; [reflexivity|]. cbn [trace set_trace load_post
    QApplication_instance parent_window].
  rewrite Ht1, Hl1. cbn [registered trace].
  rewrite (wrap_disabled_unset w Hw). repeat split; try done.
  cbn. by rewrite <- !app_assoc.
Qed.

(** X21.  Whatever the host and the user do, in whatever order and in
    whatever environment, a handler list that starts without duplicates
    never holds a handler twice. *)
Theorem load_post_never_holds_duplicates acts w :
  NoDup (load_post w) →
  ∃ w', run Darwin Win32 acts w = Some w' ∧ NoDup (load_post w').
Proof.
  intros Hnd. destruct (run_total Darwin Win32 acts w) as [w' Hrun].
  exists w'. split; [done|]. by eapply run_NoDup.
Qed.

End Scenes.

(** Three scene loads after the window has been wrapped. *)
Lemma scene_loads_without_hook_when_idle :
  run sample_class sample_class (replicate 3 Scene_load) idle_world
  = Some (set_trace
            (trace idle_world
             ++ mjoin (replicate 3 (flat_map calls (load_post idle_world))))
            idle_world).
Proof.
  apply (scene_loads_without_hook sample_class sample_class 3 idle_world).
  intros H. apply elem_of_cons in H as [H|H]; [discriminate|].
  by apply elem_of_nil in H.
Defined.

(** A list in which [add_focus_handle] stands right behind the hook: it is
    not called at the scene load that wraps the window. *)
Lemma scene_loaded_skips_add_focus_handle :
  ∃ w' evs,
    scene_loaded sample_class sample_class misordered_world = Some w' ∧
    trace w' = trace misordered_world ++ evs ∧
    Called Fn_create_global_app ∈ evs ∧
    (Called Fn_add_focus_handle ∉ evs) ∧
    (∀ g, g ∈ [Fn_foreign 1] ++ [Fn_foreign 2] → Called g ∈ evs) ∧
    load_post w' = [Fn_foreign 1] ++ Fn_add_focus_handle :: [Fn_foreign 2].
Proof.
  apply (scene_loaded_wraps_and_skips_next sample_class sample_class
           misordered_world sample_application Fn_add_focus_handle
           [Fn_foreign 1] [Fn_foreign 2]).
  - reflexivity.
  - intros H. apply elem_of_cons in H as [H|H]; [discriminate|].
    by apply elem_of_nil in H.
  - intros H. repeat (apply elem_of_cons in H as [H|H]; [discriminate|]).
    by apply elem_of_nil in H.
  - intros H. repeat (apply elem_of_cons in H as [H|H]; [discriminate|]).
    by apply elem_of_nil in H.
  - reflexivity.
Defined.

(** The add-on enabled twice, disabled, and two scenes loaded. *)
Lemma load_post_never_holds_duplicates_at_start :
  ∃ w',
    run sample_class sample_class
        [Register; Register; Scene_load; Unregister; Register; Scene_load]
        (fresh ∅ "win32") = Some w' ∧
    NoDup (load_post w').
Proof.
  apply (load_post_never_holds_duplicates sample_class sample_class
           [Register; Register; Scene_load; Unregister; Register; Scene_load]
           (fresh ∅ "win32")).
  apply NoDup_nil_2.
Defined.

(** Start-up on [win32] with an empty environment. *)
Lemma start_up_then_second_scene_on_win32 :
  ∃ w',
    run sample_class sample_class [Register; Scene_load; Scene_load]
        (fresh ∅ "win32") = Some w' ∧
    trace w' = trace (fresh ∅ "win32")
               ++ [Register_class "QFocusOperator"]
               ++ calls Fn_add_focus_handle
               ++ Called Fn_create_global_app :: dpi_calls
               ++ calls Fn_add_focus_handle ∧
    load_post w' = [Fn_add_focus_handle] ∧
    QApplication_instance w' = Some sample_application ∧
    parent_window w' = parent (_blender_window sample_application).
Proof.
  apply (start_up_then_second_scene sample_class sample_class
           (fresh ∅ "win32") sample_application).
  - reflexivity.
  - reflexivity.
  - reflexivity.
  - reflexivity.
Defined.

(** ** What set-up and tear-down leave alone *)

(** X23.  In every environment and however they end, [register] and
    [unregister] leave the application singleton, [parent_window], the
    environment, the platform and the arguments as they were: set-up and
    tear-down neither build nor quit the application. *)
Theorem register_unregister_frame w :
  (QApplication_instance (final (register w)) = QApplication_instance w ∧
   parent_window (final (register w)) = parent_window w ∧
   environ (final (register w)) = environ w ∧
   platform (final (register w)) = platform w ∧
   argv (final (register w)) = argv w) ∧
  (QApplication_instance (final (unregister w)) = QApplication_instance w ∧
   parent_window (final (unregister w)) = parent_window w ∧
   environ (final (unregister w)) = environ w ∧
   platform (final (unregister w)) = platform w ∧
   argv (final (unregister w)) = argv w ∧
   trace (final (unregister w)) = trace w).
Proof.
  rewrite register_cases, unregister_cases. split.
  - by destruct (startup_disabled w).
  - by destruct (wrap_is_1 w).
Qed.

(** ** From [register] to the end of the process *)

Section Exit.

Context (Darwin Win32 : list string → exn + BlenderApplication).

Lemma run_handler_atexit f w :
  atexit_registry (run_handler Darwin Win32 f w) = atexit_registry w.
Proof.
  destruct (decide (f = Fn_create_global_app)) as [->|Hf].
  - unfold run_handler, bind, emit. cbn [call].
    rewrite create_global_app_cases.
    destruct (application_for _ _ _) as [e|[a|]]; cbn; [done| |done].
    by destruct (remove_first _ _).
  - by rewrite run_handler_inert.
Qed.

(** Scene loads and input events leave the exit registry alone. *)
Lemma run_keeps_atexit acts :
  Forall (λ a, a ≠ Register ∧ a ≠ Unregister) acts →
  ∀ w, ∃ w',
    run Darwin Win32 acts w = Some w' ∧
    atexit_registry w' = atexit_registry w.
Proof.
  induction 1 as [|a acts [Hr Hu] _ IH]; intros w; cbn [run].
  - by exists w.
  - assert (∃ w1, step Darwin Win32 a w = Some w1
                  ∧ atexit_registry w1 = atexit_registry w)
      as (w1 & -> & H1).
    { destruct a as [| | |self event]; [done..| |]; cbn [step].
      - destruct (scene_loaded_total Darwin Win32 w) as [w1 Hw1].
        exists w1. split; [done|]. unfold scene_loaded in Hw1.
        apply (run_load_post_keeps Darwin Win32
                 (λ v, atexit_registry v = atexit_registry w)
                 (λ f v _ Hv, eq_trans (run_handler_atexit f v) Hv)
                 _ _ _ _ eq_refl Hw1).
      - eexists. split; [done|]. by detect_keyboard_paths w event. }
    destruct (IH w1) as (w' & -> & H'). exists w'. by rewrite H', H1.
Qed.

(** C9.  In a process that starts with an empty exit registry and without
    [BQT_DISABLE_STARTUP], [register] leaves [on_exit] as the one entry of
    the registry, and scene loads and input events keep it so.  At the
    end of the process the interpreter then calls [on_exit] once: with an
    application singleton that is [store_window_geometry()] followed by
    [quit()], in that order and nothing else; without one the world is
    left as it is. *)
Theorem on_exit_runs_at_process_exit acts w0 :
  environ w0 !! "BQT_DISABLE_STARTUP" = None →
  atexit_registry w0 = [] →
  Forall (λ a, a ≠ Register ∧ a ≠ Unregister) acts →
  ∃ w,
    run Darwin Win32 (Register :: acts) w0 = Some w ∧
    atexit_registry w = [Fn_on_exit] ∧
    exit_process w =
    match QApplication_instance w with
    | Some _ =>
        set_trace (trace w ++ [Store_window_geometry; Application_quit]) w
    | None => w
    end ∧
    on_exit w = Ok tt (exit_process w).
Proof.
  intros Hs H0 Hacts. cbn [run step].
  rewrite register_cases, (startup_disabled_unset w0 Hs). cbn [final].
  destruct (run_keeps_atexit acts Hacts (registered w0)) as (w & -> & Hw).
  cbn [registered atexit_registry] in Hw. rewrite H0 in Hw. cbn in Hw.
  exists w. split; [done|]. split; [done|].
  unfold exit_process. rewrite Hw. cbn [reverse rev_append run_exitfuncs
    call_exitfunc].
  change (reverse [Fn_on_exit]) with [Fn_on_exit].
  cbn [run_exitfuncs call_exitfunc]. rewrite on_exit_cases. by cbn [final].
Qed.

End Exit.

(** Start-up on [win32]: the add-on is enabled, two scenes are loaded and a
    key arrives before the process ends. *)
Lemma on_exit_runs_at_process_exit_on_win32 :
  ∃ w,
    run sample_class sample_class
        (Register ::
         [Scene_load; Input {| _qapp := RefNone |} {| type := "A" |};
          Scene_load])
        (fresh ∅ "win32") = Some w ∧
    atexit_registry w = [Fn_on_exit] ∧
    exit_process w =
    match QApplication_instance w with
    | Some _ =>
        set_trace (trace w ++ [Store_window_geometry; Application_quit]) w
    | None => w
    end ∧
    on_exit w = Ok tt (exit_process w).
Proof.
  apply (on_exit_runs_at_process_exit sample_class sample_class
           [Scene_load; Input {| _qapp := RefNone |} {| type := "A" |};
            Scene_load]
           (fresh ∅ "win32")).
  - reflexivity.
  - reflexivity.
  - repeat constructor; discriminate.
Defined.
